(** * ai-form-backend: the fill-form relay

    A shallow embedding of [app/api/v1/endpoints/form_filler.py],
    [app/core/llm_services.py], [app/models/form_models.py] and the global
    exception handler of [app/main.py], with the properties of the relay's
    request/response contract.

    Conventions of the embedding.
    - A Python [str] is a [string]: the sequence of bytes of its UTF-8
      encoding.  Concatenation, [join] and substring search commute with that
      encoding, and every character the JSON grammar looks at is ASCII.
      The body of an upstream response is a [string] too: its bytes, which
      [json.loads] decodes before it parses.
    - A value produced by [json.loads] is a [json]; a [dict] is an association
      list in insertion order with distinct keys.
    - An exception is a value of [exn]; code that may raise returns a
      [result].  The text of exceptions raised by libraries or by the
      interpreter is not fixed by this repository: it is the section variable
      [lib_message].
    - The outbound HTTP exchange is the section variable [post]; the list of
      requests handed to it is threaded through the completion client as
      explicit state.
    - Logging calls have no effect on any result and are left out.
    - Limits of the interpreter are left out: the recursion limit on deeply
      nested JSON and the limit on the number of digits of an [int]. *)

From Stdlib Require Import String Ascii List ZArith NArith Bool Lia.
Import ListNotations.
Local Open Scope list_scope.
Local Open Scope string_scope.
Local Open Scope Z_scope.
#[local] Set Warnings "-register-all".

(** ** Characters and string helpers *)

Definition LF : string := String (ascii_of_nat 10) EmptyString.
Definition DQUOTE : ascii := ascii_of_nat 34.

(** Literals of this file write a backquote where the text has a double
    quote; [q] puts the double quotes back. *)
Fixpoint q (s : string) : string :=
  match s with
  | EmptyString => EmptyString
  | String c r => String (if Ascii.eqb c "`"%char then DQUOTE else c) (q r)
  end.

(** [sep.join(parts)] *)
Fixpoint join (sep : string) (parts : list string) : string :=
  match parts with
  | [] => EmptyString
  | [p] => p
  | p :: rest => p ++ sep ++ join sep rest
  end.

(** [needle in haystack] on two [str] values *)
Fixpoint str_contains (needle haystack : string) : bool :=
  String.prefix needle haystack ||
  match haystack with
  | EmptyString => false
  | String _ rest => str_contains needle rest
  end.

(** The first character of a non-empty [str]: one UTF-8 sequence. *)
Definition first_char (s : string) : string :=
  match s with
  | EmptyString => EmptyString
  | String c _ =>
      let b := N_of_ascii c in
      let len := (if b <? 128 then 1 else if b <? 224 then 2
                  else if b <? 240 then 3 else 4)%N in
      String.substring 0 (N.to_nat len) s
  end.

(** ** Values of [json.loads] *)

(** A Python [float] read from a literal: not-a-number, an infinity, or the
    decimal [(-1)^neg * digits * 10^exp10] as written. *)
Inductive pyfloat :=
| FNaN
| FInf (neg : bool)
| FDec (neg : bool) (digits : N) (exp10 : Z).

Inductive json :=
| JNull
| JBool (b : bool)
| JInt (n : Z)
| JFloat (f : pyfloat)
| JStr (s : string)
| JList (items : list json)
| JDict (entries : list (string * json)).

(** [d[key] = value] on a [dict]: an existing key keeps its place. *)
Fixpoint dict_set (entries : list (string * json)) (key : string) (value : json)
  : list (string * json) :=
  match entries with
  | [] => [(key, value)]
  | (k, v) :: rest =>
      if String.eqb k key then (k, value) :: rest
      else (k, v) :: dict_set rest key value
  end.

Fixpoint dict_get (entries : list (string * json)) (key : string) : option json :=
  match entries with
  | [] => None
  | (k, v) :: rest => if String.eqb k key then Some v else dict_get rest key
  end.

(** The literal rounds to [0.0]: it is zero, or at most half of the least
    positive double, [2^-1075]. *)
Definition rounds_to_zero (digits : N) (exp10 : Z) : bool :=
  (Z.of_N digits =? 0) ||
  ((exp10 <? 0) && (Z.of_N digits * 2 ^ 1075 <=? 10 ^ (- exp10))).

(** [bool(v)] *)
Definition truthy (v : json) : bool :=
  match v with
  | JNull => false
  | JBool b => b
  | JInt n => negb (n =? 0)
  | JFloat (FDec _ d e) => negb (rounds_to_zero d e)
  | JFloat _ => true
  | JStr s => negb (String.eqb s EmptyString)
  | JList items => match items with [] => false | _ => true end
  | JDict entries => match entries with [] => false | _ => true end
  end.

(** [type(v).__name__] *)
Definition type_name (v : json) : string :=
  match v with
  | JNull => "NoneType"
  | JBool _ => "bool"
  | JInt _ => "int"
  | JFloat _ => "float"
  | JStr _ => "str"
  | JList _ => "list"
  | JDict _ => "dict"
  end.

(** ** [json.loads]: the lexer

    One pass over the text, one character at a time. *)

Inductive token :=
| TLBrace | TRBrace | TLBracket | TRBracket | TColon | TComma
| TString (s : string)
| TWord (w : string).

Inductive lex_mode :=
| Idle
| InWord (acc : string)
| InString (acc : string) (pending : option N)
| InEscape (acc : string) (pending : option N)
| InUnicode (acc : string) (pending : option N) (seen : nat) (value : N).

Definition snoc (s : string) (c : ascii) : string := s ++ String c EmptyString.

Definition byte (n : N) : string := String (ascii_of_N n) EmptyString.

(** UTF-8 of a code point; a lone surrogate is written like any other
    three-byte code point. *)
Definition utf8 (cp : N) : string :=
  (if cp <? 128 then byte cp
   else if cp <? 2048 then byte (192 + cp / 64) ++ byte (128 + cp mod 64)
   else if cp <? 65536 then
     byte (224 + cp / 4096) ++ byte (128 + (cp / 64) mod 64) ++ byte (128 + cp mod 64)
   else
     byte (240 + cp / 262144) ++ byte (128 + (cp / 4096) mod 64)
       ++ byte (128 + (cp / 64) mod 64) ++ byte (128 + cp mod 64))%N.

Definition is_high_surrogate (cp : N) : bool := ((55296 <=? cp) && (cp <=? 56319))%N.
Definition is_low_surrogate (cp : N) : bool := ((56320 <=? cp) && (cp <=? 57343))%N.
Definition join_surrogates (hi lo : N) : N :=
  (65536 + (hi - 55296) * 1024 + (lo - 56320))%N.

Definition flush_pending (acc : string) (pending : option N) : string :=
  match pending with
  | Some hi => acc ++ utf8 hi
  | None => acc
  end.

Definition hex_value (c : ascii) : option N :=
  let n := N_of_ascii c in
  (if (48 <=? n) && (n <=? 57) then Some (n - 48)
   else if (65 <=? n) && (n <=? 70) then Some (n - 55)
   else if (97 <=? n) && (n <=? 102) then Some (n - 87)
   else None)%N.

Definition is_whitespace (c : ascii) : bool :=
  let n := N_of_ascii c in
  ((n =? 32) || (n =? 9) || (n =? 10) || (n =? 13))%N.

Definition structural (c : ascii) : option token :=
  let n := N_of_ascii c in
  (if n =? 123 then Some TLBrace
   else if n =? 125 then Some TRBrace
   else if n =? 91 then Some TLBracket
   else if n =? 93 then Some TRBracket
   else if n =? 58 then Some TColon
   else if n =? 44 then Some TComma
   else None)%N.

(** The character a one-letter escape stands for. *)
Definition escape_char (c : ascii) : option N :=
  let n := N_of_ascii c in
  (if n =? 34 then Some 34        (* double quote *)
   else if n =? 92 then Some 92   (* backslash *)
   else if n =? 47 then Some 47   (* slash *)
   else if n =? 98 then Some 8    (* b: backspace *)
   else if n =? 102 then Some 12  (* f: form feed *)
   else if n =? 110 then Some 10  (* n: line feed *)
   else if n =? 114 then Some 13  (* r: carriage return *)
   else if n =? 116 then Some 9   (* t: tab *)
   else None)%N.

Definition lex_state : Type := lex_mode * list token.

Definition lex_idle (c : ascii) (toks : list token) : option lex_state :=
  if is_whitespace c then Some (Idle, toks)
  else match structural c with
       | Some t => Some (Idle, (toks ++ [t])%list)
       | None =>
           if Ascii.eqb c DQUOTE then Some (InString EmptyString None, toks)
           else Some (InWord (String c EmptyString), toks)
       end.

(** A finished [\uXXXX] escape, with the high surrogate that may precede it. *)
Definition lex_code_unit (acc : string) (pending : option N) (cp : N) : lex_mode :=
  match pending with
  | Some hi =>
      if is_low_surrogate cp then InString (acc ++ utf8 (join_surrogates hi cp)) None
      else if is_high_surrogate cp then InString (acc ++ utf8 hi) (Some cp)
      else InString (acc ++ utf8 hi ++ utf8 cp) None
  | None =>
      if is_high_surrogate cp then InString acc (Some cp)
      else InString (acc ++ utf8 cp) None
  end.

Definition lex_step (st : lex_state) (c : ascii) : option lex_state :=
  let (mode, toks) := st in
  match mode with
  | Idle => lex_idle c toks
  | InWord acc =>
      if is_whitespace c || Ascii.eqb c DQUOTE
         || match structural c with Some _ => true | None => false end
      then lex_idle c (toks ++ [TWord acc])%list
      else Some (InWord (snoc acc c), toks)
  | InString acc pending =>
      if Ascii.eqb c DQUOTE then Some (Idle, (toks ++ [TString (flush_pending acc pending)])%list)
      else if Ascii.eqb c "\"%char then Some (InEscape acc pending, toks)
      else if (N_of_ascii c <? 32)%N then None
      else Some (InString (snoc (flush_pending acc pending) c) None, toks)
  | InEscape acc pending =>
      if Ascii.eqb c "u"%char then Some (InUnicode acc pending 0 0%N, toks)
      else match escape_char c with
           | Some n => Some (InString (flush_pending acc pending ++ byte n) None, toks)
           | None => None
           end
  | InUnicode acc pending seen value =>
      match hex_value c with
      | Some d =>
          let value' := (value * 16 + d)%N in
          if Nat.eqb seen 3 then Some (lex_code_unit acc pending value', toks)
          else Some (InUnicode acc pending (S seen) value', toks)
      | None => None
      end
  end.

Fixpoint lex_from (st : lex_state) (text : string) : option (list token) :=
  match text with
  | EmptyString =>
      match st with
      | (Idle, toks) => Some toks
      | (InWord acc, toks) => Some (toks ++ [TWord acc])%list
      | _ => None
      end
  | String c rest =>
      match lex_step st c with
      | Some st' => lex_from st' rest
      | None => None
      end
  end.

Definition lex (text : string) : option (list token) := lex_from (Idle, []) text.

(** ** [json.loads]: scalars *)

Definition is_digit (c : ascii) : bool :=
  let n := N_of_ascii c in ((48 <=? n) && (n <=? 57))%N.

Fixpoint span_digits (s : string) : string * string :=
  match s with
  | String c rest =>
      if is_digit c then let (d, r) := span_digits rest in (String c d, r)
      else (EmptyString, s)
  | EmptyString => (EmptyString, EmptyString)
  end.

Fixpoint digits_value (acc : N) (s : string) : N :=
  match s with
  | EmptyString => acc
  | String c rest => digits_value (acc * 10 + (N_of_ascii c - 48))%N rest
  end.

(** [0] or a digit string that does not start with [0] *)
Definition valid_int_part (s : string) : bool :=
  match s with
  | EmptyString => false
  | String c rest => negb (Ascii.eqb c "0"%char) || String.eqb rest EmptyString
  end.

Definition strip_minus (s : string) : bool * string :=
  match s with
  | String c rest => if Ascii.eqb c "-"%char then (true, rest) else (false, s)
  | EmptyString => (false, s)
  end.

(** The fraction [.ddd], when there is one: its digits and what follows. *)
Definition take_fraction (s : string) : option (option string * string) :=
  match s with
  | String c rest =>
      if Ascii.eqb c "."%char then
        let (d, r) := span_digits rest in
        if String.eqb d EmptyString then None else Some (Some d, r)
      else Some (None, s)
  | EmptyString => Some (None, s)
  end.

(** The exponent [e+dd], when there is one, up to the end of the word. *)
Definition take_exponent (s : string) : option (option Z) :=
  match s with
  | EmptyString => Some None
  | String c rest =>
      if Ascii.eqb c "e"%char || Ascii.eqb c "E"%char then
        let (neg, r1) :=
          match rest with
          | String s1 r =>
              if Ascii.eqb s1 "-"%char then (true, r)
              else if Ascii.eqb s1 "+"%char then (false, r)
              else (false, rest)
          | EmptyString => (false, rest)
          end in
        let (d, r2) := span_digits r1 in
        if String.eqb d EmptyString || negb (String.eqb r2 EmptyString) then None
        else let v := Z.of_N (digits_value 0 d) in
             Some (Some (if neg then - v else v))
      else None
  end.

(** A word of the number grammar: an optional minus, an integer part, an
    optional fraction, an optional exponent.  It is an [int] without fraction
    and exponent, else a [float]. *)
Definition parse_number (w : string) : option json :=
  let (neg, s1) := strip_minus w in
  let (ip, s2) := span_digits s1 in
  if valid_int_part ip then
    match take_fraction s2 with
    | Some (frac, s3) =>
        match take_exponent s3 with
        | Some ex =>
            match frac, ex with
            | None, None =>
                let v := Z.of_N (digits_value 0 ip) in
                Some (JInt (if neg then - v else v))
            | _, _ =>
                let fd := match frac with Some d => d | None => EmptyString end in
                let e := match ex with Some e => e | None => 0 end in
                Some (JFloat (FDec neg (digits_value 0 (ip ++ fd))
                                (e - Z.of_nat (String.length fd))))
            end
        | None => None
        end
    | None => None
    end
  else None.

Definition scalar_of_word (w : string) : option json :=
  if String.eqb w "null" then Some JNull
  else if String.eqb w "true" then Some (JBool true)
  else if String.eqb w "false" then Some (JBool false)
  else if String.eqb w "NaN" then Some (JFloat FNaN)
  else if String.eqb w "Infinity" then Some (JFloat (FInf false))
  else if String.eqb w "-Infinity" then Some (JFloat (FInf true))
  else parse_number w.

(** ** [json.loads]: the parser

    A stack of the containers that are open, and what may come next. *)

Inductive frame :=
| FList (items : list json)
| FDict (entries : list (string * json)) (key : option string).

Inductive expect :=
| PValue (first : bool)
| PKey (first : bool)
| PColon
| PAfter
| PDone (v : json).

Definition parse_state : Type := expect * list frame.

(** A value is finished: it is the document, or goes into the innermost
    open container. *)
Definition complete (v : json) (stack : list frame) : option parse_state :=
  match stack with
  | [] => Some (PDone v, [])
  | FList items :: rest => Some (PAfter, FList (items ++ [v])%list :: rest)
  | FDict entries (Some k) :: rest => Some (PAfter, FDict (dict_set entries k v) None :: rest)
  | FDict _ None :: _ => None
  end.

Definition parse_step (st : parse_state) (t : token) : option parse_state :=
  let (ex, stack) := st in
  match ex, t with
  | PValue _, TLBrace => Some (PKey true, FDict [] None :: stack)
  | PValue _, TLBracket => Some (PValue true, FList [] :: stack)
  | PValue true, TRBracket =>
      match stack with
      | FList items :: rest => complete (JList items) rest
      | _ => None
      end
  | PValue _, TString s => complete (JStr s) stack
  | PValue _, TWord w =>
      match scalar_of_word w with
      | Some v => complete v stack
      | None => None
      end
  | PKey _, TString k =>
      match stack with
      | FDict entries None :: rest => Some (PColon, FDict entries (Some k) :: rest)
      | _ => None
      end
  | PKey true, TRBrace =>
      match stack with
      | FDict entries None :: rest => complete (JDict entries) rest
      | _ => None
      end
  | PColon, TColon => Some (PValue false, stack)
  | PAfter, TComma =>
      match stack with
      | FList _ :: _ => Some (PValue false, stack)
      | FDict _ None :: _ => Some (PKey false, stack)
      | _ => None
      end
  | PAfter, TRBracket =>
      match stack with
      | FList items :: rest => complete (JList items) rest
      | _ => None
      end
  | PAfter, TRBrace =>
      match stack with
      | FDict entries None :: rest => complete (JDict entries) rest
      | _ => None
      end
  | _, _ => None
  end.

Fixpoint parse_from (st : parse_state) (toks : list token) : option json :=
  match toks with
  | [] => match st with (PDone v, _) => Some v | _ => None end
  | t :: rest =>
      match parse_step st t with
      | Some st' => parse_from st' rest
      | None => None
      end
  end.

(** ** Text and bytes

    A [str] may hold unpaired surrogates; its bytes are then the UTF-8 form
    of each code point, surrogates included, which is what Python's
    [surrogatepass] writes and reads. *)

(** What may follow in a UTF-8 sequence: how many continuation bytes are
    still due, and the range the next one must lie in. *)
Fixpoint well_formed_from (due : nat) (lo hi : N) (s : string) {struct s} : bool :=
  match s with
  | EmptyString => Nat.eqb due 0
  | String c rest =>
      let b := N_of_ascii c in
      match due with
      | S due' => (lo <=? b)%N && (b <=? hi)%N && well_formed_from due' 128 191 rest
      | O =>
          if (b <? 128)%N then well_formed_from 0 128 191 rest
          else if (b <? 194)%N then false
          else if (b <? 224)%N then well_formed_from 1 128 191 rest
          else if (b =? 224)%N then well_formed_from 2 160 191 rest
          else if (b <? 240)%N then well_formed_from 2 128 191 rest
          else if (b =? 240)%N then well_formed_from 3 144 191 rest
          else if (b <? 244)%N then well_formed_from 3 128 191 rest
          else if (b =? 244)%N then well_formed_from 3 128 143 rest
          else false
      end
  end.

(** The bytes are the encoding of a [str]: [bytes.decode("utf-8",
    "surrogatepass")] succeeds. *)
Definition well_formed (s : string) : bool := well_formed_from 0 128 191 s.

(** Bytes still to skip in the current sequence, after its first byte. *)
Definition sequence_tail (lead : N) : nat :=
  if (lead <? 192)%N then 0 else if (lead <? 224)%N then 1
  else if (lead <? 240)%N then 2 else 3.

(** The first byte of a sequence and the byte after it start a surrogate. *)
Definition starts_surrogate (lead : N) (rest : string) : bool :=
  match rest with
  | String d _ => (lead =? 237)%N && (160 <=? N_of_ascii d)%N
  | EmptyString => false
  end.

Fixpoint has_surrogate_from (skip : nat) (s : string) : bool :=
  match s with
  | EmptyString => false
  | String c rest =>
      match skip with
      | S skip' => has_surrogate_from skip' rest
      | O =>
          starts_surrogate (N_of_ascii c) rest
          || has_surrogate_from (sequence_tail (N_of_ascii c)) rest
      end
  end.

(** The [str] holds a surrogate code point: it cannot be encoded as UTF-8. *)
Definition has_surrogate (s : string) : bool := has_surrogate_from 0 s.

Definition REPLACEMENT : string := byte 239 ++ byte 191 ++ byte 189.

(** Lossy decoding of the [surrogatepass] bytes: each of the three bytes of
    a surrogate becomes U+FFFD. *)
Fixpoint replace_surrogates_from (skip replace : nat) (s : string) : string :=
  match s with
  | EmptyString => EmptyString
  | String c rest =>
      match replace with
      | S replace' => REPLACEMENT ++ replace_surrogates_from 0 replace' rest
      | O =>
          match skip with
          | S skip' => String c (replace_surrogates_from skip' 0 rest)
          | O =>
              if starts_surrogate (N_of_ascii c) rest
              then REPLACEMENT ++ replace_surrogates_from 0 2 rest
              else String c (replace_surrogates_from
                               (sequence_tail (N_of_ascii c)) 0 rest)
          end
      end
  end.

(** [to_string_lossy] of a [str], as pydantic applies it to the keys of a
    mapping it serialises. *)
Definition to_string_lossy (s : string) : string :=
  if has_surrogate s then replace_surrogates_from 0 0 s else s.

(** The byte order marks. *)
Definition BOM_UTF8 : string := byte 239 ++ byte 187 ++ byte 191.
Definition BOM_UTF16_BE : string := byte 254 ++ byte 255.
Definition BOM_UTF16_LE : string := byte 255 ++ byte 254.
Definition BOM_UTF32_BE : string := byte 0 ++ byte 0 ++ byte 254 ++ byte 255.
Definition BOM_UTF32_LE : string := byte 255 ++ byte 254 ++ byte 0 ++ byte 0.

Inductive encoding :=
| UTF_8 | UTF_8_SIG
| UTF_16 | UTF_16_BE | UTF_16_LE
| UTF_32 | UTF_32_BE | UTF_32_LE.

(** [b[i]] is zero. *)
Definition zero_at (i : nat) (b : string) : bool :=
  match String.get i b with
  | Some c => (N_of_ascii c =? 0)%N
  | None => false
  end.

(** [json.detect_encoding(b)] *)
Definition detect_encoding (b : string) : encoding :=
  if String.prefix BOM_UTF32_BE b || String.prefix BOM_UTF32_LE b then UTF_32
  else if String.prefix BOM_UTF16_BE b || String.prefix BOM_UTF16_LE b then UTF_16
  else if String.prefix BOM_UTF8 b then UTF_8_SIG
  else if (4 <=? String.length b)%nat then
    if zero_at 0 b then (if zero_at 1 b then UTF_32_BE else UTF_16_BE)
    else if zero_at 1 b then
      (if zero_at 2 b && zero_at 3 b then UTF_32_LE else UTF_16_LE)
    else UTF_8
  else if Nat.eqb (String.length b) 2 then
    if zero_at 0 b then UTF_16_BE
    else if zero_at 1 b then UTF_16_LE
    else UTF_8
  else UTF_8.

(** The 16-bit units of the bytes; [None] when a byte is left over. *)
Fixpoint units16 (little : bool) (b : string) : option (list N) :=
  match b with
  | EmptyString => Some []
  | String _ EmptyString => None
  | String x (String y rest) =>
      match units16 little rest with
      | Some units =>
          let (hi, lo) := if little then (y, x) else (x, y) in
          Some ((N_of_ascii hi * 256 + N_of_ascii lo)%N :: units)
      | None => None
      end
  end.

(** The text of UTF-16 units: pairs of surrogates are joined, unpaired ones
    are kept. *)
Fixpoint text16 (units : list N) : string :=
  match units with
  | [] => EmptyString
  | u :: rest =>
      match rest with
      | v :: rest' =>
          if is_high_surrogate u && is_low_surrogate v
          then utf8 (join_surrogates u v) ++ text16 rest'
          else utf8 u ++ text16 rest
      | [] => utf8 u
      end
  end.

(** The 32-bit units of the bytes; [None] when bytes are left over or a unit
    is not a code point. *)
Fixpoint units32 (little : bool) (b : string) : option (list N) :=
  match b with
  | EmptyString => Some []
  | String w (String x (String y (String z rest))) =>
      match units32 little rest with
      | Some units =>
          let cp := (if little
                     then ((N_of_ascii z * 256 + N_of_ascii y) * 256 + N_of_ascii x) * 256
                          + N_of_ascii w
                     else ((N_of_ascii w * 256 + N_of_ascii x) * 256 + N_of_ascii y) * 256
                          + N_of_ascii z)%N in
          if (cp <? 1114112)%N then Some (cp :: units) else None
      | None => None
      end
  | _ => None
  end.

Definition text32 (units : list N) : string :=
  fold_right (fun cp text => utf8 cp ++ text) EmptyString units.

Definition drop (n : nat) (b : string) : string :=
  String.substring n (String.length b - n) b.

(** [b.decode(encoding, "surrogatepass")]; [None] where Python raises
    [UnicodeDecodeError]. *)
Definition decode (enc : encoding) (b : string) : option string :=
  match enc with
  | UTF_8 => if well_formed b then Some b else None
  | UTF_8_SIG =>
      let b' := if String.prefix BOM_UTF8 b then drop 3 b else b in
      if well_formed b' then Some b' else None
  | UTF_16 =>
      if String.prefix BOM_UTF16_BE b then option_map text16 (units16 false (drop 2 b))
      else if String.prefix BOM_UTF16_LE b then option_map text16 (units16 true (drop 2 b))
      else option_map text16 (units16 true b)
  | UTF_16_BE => option_map text16 (units16 false b)
  | UTF_16_LE => option_map text16 (units16 true b)
  | UTF_32 =>
      if String.prefix BOM_UTF32_BE b then option_map text32 (units32 false (drop 4 b))
      else if String.prefix BOM_UTF32_LE b then option_map text32 (units32 true (drop 4 b))
      else option_map text32 (units32 true b)
  | UTF_32_BE => option_map text32 (units32 false b)
  | UTF_32_LE => option_map text32 (units32 true b)
  end.

(** The [str] that [json.loads] makes of bytes before it parses. *)
Definition decode_body (body : string) : option string :=
  decode (detect_encoding body) body.

(** [json.loads(text)] for a [str]: the value, or [None] where Python raises
    [json.JSONDecodeError], as it does at once for a text that starts with
    the byte order mark.  Bytes that are the encoding of no [str] are no
    text and give [None] too. *)
Definition json_loads (text : string) : option json :=
  if negb (well_formed text) || String.prefix BOM_UTF8 text then None
  else
    match lex text with
    | Some toks => parse_from (PValue false, []) toks
    | None => None
    end.

(** ** Exceptions and results *)

Record HttpRequest := {
  request_url : string;
  request_headers : list (string * string);
  request_json : json;
  request_timeout : Z
}.

(** What the upstream answered; [text] holds the bytes of the body, which
    [response.json()] decodes before it parses them. *)
Record HttpResponse := {
  status_code : Z;
  text : string
}.

Inductive exn :=
| RequestError (msg : string)                (* httpx.RequestError *)
| HTTPStatusError (response : HttpResponse)  (* httpx.HTTPStatusError *)
| JSONDecodeError (doc : string)             (* json.JSONDecodeError *)
| KeyError (key : json)
| IndexError
| TypeError (operation operand_type : string)
| AttributeError (operand_type attribute : string)
| ValueError (msg : string)
| UnicodeDecodeError (data : string)
| UnicodeEncodeError (text : string)
| ValidationError (model : string) (input : json)  (* pydantic *)
| HTTPException (code : Z) (detail : string)       (* fastapi.HTTPException *)
| OtherException (class_name msg : string).        (* any other Exception *)

Inductive result (A : Type) :=
| Ok (a : A)
| Raise (e : exn).
Arguments Ok {A} a.
Arguments Raise {A} e.

(** Sequencing of code that may raise. *)
Definition and_then {A B : Type} (r : result A) (k : A -> result B) : result B :=
  match r with
  | Ok a => k a
  | Raise e => Raise e
  end.

Declare Scope result_scope.
Delimit Scope result_scope with result.
Notation "x <~ r ;; k" := (and_then r (fun x => k))
  (at level 61, r at next level, right associativity) : result_scope.
Local Open Scope result_scope.

(** [isinstance(e, httpx.HTTPStatusError)] *)
Definition is_HTTPStatusError (e : exn) : bool :=
  match e with HTTPStatusError _ => true | _ => false end.

(** [isinstance(e, httpx.RequestError)] *)
Definition is_RequestError (e : exn) : bool :=
  match e with RequestError _ => true | _ => false end.

(** [isinstance(e, json.JSONDecodeError)] *)
Definition is_JSONDecodeError (e : exn) : bool :=
  match e with JSONDecodeError _ => true | _ => false end.

(** [isinstance(e, KeyError)] *)
Definition is_KeyError (e : exn) : bool :=
  match e with KeyError _ => true | _ => false end.

(** [isinstance(e, ValueError)]: [json.JSONDecodeError], the two Unicode
    errors and pydantic's [ValidationError] are subclasses of [ValueError]. *)
Definition is_ValueError (e : exn) : bool :=
  match e with
  | ValueError _ | JSONDecodeError _ | ValidationError _ _
  | UnicodeDecodeError _ | UnicodeEncodeError _ => true
  | _ => false
  end.

(** ** The operations of Python the completion client applies to the
    decoded body, on every kind of value the body can decode to *)

Definition is_str (s : string) (v : json) : bool :=
  match v with JStr s' => String.eqb s' s | _ => false end.

(** [needle in container], for a [str] needle *)
Definition py_contains (needle : string) (container : json) : result bool :=
  match container with
  | JDict entries =>
      Ok (match dict_get entries needle with Some _ => true | None => false end)
  | JList items => Ok (existsb (is_str needle) items)
  | JStr s => Ok (str_contains needle s)
  | v => Raise (TypeError "in" (type_name v))
  end.

(** [obj[key]], for a [str] key *)
Definition py_getitem_str (obj : json) (key : string) : result json :=
  match obj with
  | JDict entries =>
      match dict_get entries key with
      | Some v => Ok v
      | None => Raise (KeyError (JStr key))
      end
  | v => Raise (TypeError "getitem" (type_name v))
  end.

(** [obj[0]] *)
Definition py_getitem_0 (obj : json) : result json :=
  match obj with
  | JList (x :: _) => Ok x
  | JList [] => Raise IndexError
  | JStr s => if String.eqb s EmptyString then Raise IndexError else Ok (JStr (first_char s))
  | JDict _ => Raise (KeyError (JInt 0))
  | v => Raise (TypeError "getitem" (type_name v))
  end.

(** [obj.get(key, default)] *)
Definition py_get (obj : json) (key : string) (default : json) : result json :=
  match obj with
  | JDict entries =>
      Ok (match dict_get entries key with Some v => v | None => default end)
  | v => Raise (AttributeError (type_name v) "get")
  end.

(** [json.loads(obj)]: [obj] must be a [str]. *)
Definition loads (obj : json) : result json :=
  match obj with
  | JStr doc =>
      match json_loads doc with
      | Some v => Ok v
      | None => Raise (JSONDecodeError doc)
      end
  | v => Raise (TypeError "json.loads" (type_name v))
  end.

(** ** app/models/form_models.py *)

Record FillFormRequest := {
  fields : list string;
  source_content : string;
  prompt_template_id : option string
}.

(** [FillFormRequest(fields=..., source_content=..., prompt_template_id=...)]:
    the identifier defaults to [default_v1] when it is not given. *)
Definition FillFormRequest_init (fields : list string) (source_content : string)
    (prompt_template_id : option (option string)) : FillFormRequest :=
  {| fields := fields;
     source_content := source_content;
     prompt_template_id :=
       match prompt_template_id with
       | Some given => given
       | None => Some "default_v1"
       end |}.

Record FillFormSuccessResponse := {
  status : string;
  filled_data : list (string * string)
}.

(** Validation of a value against [Dict[str, str]]: every value of the dict
    must be a [str] (pydantic 2, which [pydantic_settings] of
    app/core/config.py requires, converts no other JSON value to [str]). *)
Fixpoint validate_Dict_str_str (entries : list (string * json))
  : option (list (string * string)) :=
  match entries with
  | [] => Some []
  | (k, JStr s) :: rest =>
      match validate_Dict_str_str rest with
      | Some rest' => Some ((k, s) :: rest')
      | None => None
      end
  | _ :: _ => None
  end.

(** [FillFormSuccessResponse(filled_data=value)] *)
Definition FillFormSuccessResponse_init (value : json) : result FillFormSuccessResponse :=
  match value with
  | JDict entries =>
      match validate_Dict_str_str entries with
      | Some data => Ok {| status := "success"; filled_data := data |}
      | None => Raise (ValidationError "FillFormSuccessResponse" value)
      end
  | _ => Raise (ValidationError "FillFormSuccessResponse" value)
  end.

(** The [json] value a validated mapping stands for. *)
Definition json_of_data (data : list (string * string)) : json :=
  JDict (map (fun kv => (fst kv, JStr (snd kv))) data).

(** ** app/core/config.py *)

Record Settings := {
  llm_api_key : string;
  llm_api_endpoint : string;
  app_name : string;
  cors_origins : list string
}.

(** ** app/core/llm_services.py *)

Record LLMService := {
  api_key : string;
  api_endpoint : string;
  timeout : Z
}.

Definition LLMService_init (api_key api_endpoint : string) : LLMService :=
  {| api_key := api_key; api_endpoint := api_endpoint; timeout := 30 |}.

(** [response.raise_for_status()]: httpx raises unless the status is 2xx. *)
Definition raise_for_status (response : HttpResponse) : result unit :=
  if (200 <=? status_code response) && (status_code response <=? 299) then Ok tt
  else Raise (HTTPStatusError response).

(** [json.loads(body)] for bytes: the bytes are decoded with the encoding
    they show, then parsed. *)
Definition loads_bytes (body : string) : result json :=
  match decode_body body with
  | Some doc => loads (JStr doc)
  | None => Raise (UnicodeDecodeError body)
  end.

(** [response.json()]: httpx hands the bytes of the body to [json.loads]. *)
Definition response_json (response : HttpResponse) : result json :=
  loads_bytes (text response).

(** Computations that send requests: the requests sent so far are the state. *)
Definition io (A : Type) : Type := list HttpRequest -> result A * list HttpRequest.

Definition raise {A : Type} (e : exn) : io A := fun sent => (Raise e, sent).

Definition lift {A : Type} (r : result A) : io A := fun sent => (r, sent).

Definition bind {A B : Type} (m : io A) (k : A -> io B) : io B :=
  fun sent =>
    match m sent with
    | (Ok a, sent') => k a sent'
    | (Raise e, sent') => (Raise e, sent')
    end.

(** [try: body / except: handler] *)
Definition try_except {A : Type} (body : io A) (handler : exn -> io A) : io A :=
  fun sent =>
    match body sent with
    | (Ok a, sent') => (Ok a, sent')
    | (Raise e, sent') => handler e sent'
    end.

Declare Scope io_scope.
Delimit Scope io_scope with io.
Notation "x <- m ;; k" := (bind m (fun x => k))
  (at level 61, m at next level, right associativity) : io_scope.
Local Open Scope io_scope.

Section Relay.

(** [str(e)] for the exceptions whose text a library or the interpreter
    writes. *)
Variable lib_message : exn -> string.

(** The upstream: what [client.post] does with a request. *)
Variable post : HttpRequest -> result HttpResponse.

(** [str(e)] *)
Definition str (e : exn) : string :=
  match e with
  | ValueError msg => msg
  | RequestError msg => msg
  | OtherException _ msg => msg
  | _ => lib_message e
  end.

(** [await client.post(url, headers=..., json=...)] on a client made with
    [timeout=...] *)
Definition client_post (request : HttpRequest) : io HttpResponse :=
  fun sent => (post request, (sent ++ [request])%list).

(** The body of the [try] after the response has been decoded: the two
    nested [if]s, and the [raise ValueError] both fall through to. *)
Definition extract_content (response_data : json) : result json :=
  let not_found : result json :=
    Raise (ValueError "Could not extract valid content from LLM response.") in
  has_choices <~ py_contains "choices" response_data ;;
  choices_truthy <~ (if has_choices
                     then choices <~ py_getitem_str response_data "choices" ;;
                          Ok (truthy choices)
                     else Ok false) ;;
  if choices_truthy then
    choices <~ py_getitem_str response_data "choices" ;;
    choice <~ py_getitem_0 choices ;;
    message <~ py_get choice "message" (JDict []) ;;
    has_content <~ py_contains "content" message ;;
    if has_content then py_getitem_str message "content" else not_found
  else not_found.

(** The three [except] clauses of [get_completion], in order. *)
Definition completion_handler {A : Type} (e : exn) : io A :=
  if is_HTTPStatusError e then raise e
  else if is_RequestError e then raise e
  else if is_JSONDecodeError e || is_KeyError e || is_ValueError e then
    raise (ValueError ("Error parsing LLM API response: " ++ str e))
  else raise e.

Definition get_completion (self : LLMService) (prompt : string) : io json :=
  let headers := [("Authorization", "Bearer " ++ api_key self);
                  ("Content-Type", "application/json")] in
  let payload := JDict [("model", JStr "deepseek-coder");
                        ("prompt", JStr prompt);
                        ("max_tokens", JInt 1500);
                        ("temperature", JFloat (FDec false 1 (-1)))] in
  try_except
    (response <- client_post {| request_url := api_endpoint self;
                                request_headers := headers;
                                request_json := payload;
                                request_timeout := timeout self |} ;;
     _ <- lift (raise_for_status response) ;;
     response_data <- lift (response_json response) ;;
     lift (extract_content response_data))
    completion_handler.

(** ** app/api/v1/endpoints/form_filler.py *)

Definition fields_str (request_data : FillFormRequest) : string :=
  join LF (map (fun field => "- " ++ field) (fields request_data)).

Definition prompt (request_data : FillFormRequest) : string :=
  "You are an AI assistant tasked with filling out a form." ++ LF ++
  "Below are the fields of the form:" ++ LF ++
  "--- FIELDS START ---" ++ LF ++
  fields_str request_data ++ LF ++
  "--- FIELDS END ---" ++ LF ++
  LF ++
  "Here is the source content from which to extract the information:" ++ LF ++
  "--- CONTENT START ---" ++ LF ++
  source_content request_data ++ LF ++
  "--- CONTENT END ---" ++ LF ++
  LF ++
  "Please extract the relevant information from the CONTENT and fill in each FIELD." ++ LF ++
  "Return the output as a JSON object where each key is a field name from the FIELDS list and its value is the corresponding extracted content." ++ LF ++
  q "If information for a field is not found, use an empty string or `Not Found` as its value." ++ LF ++
  "Ensure the output is only the JSON object itself, without any additional explanations or markings." ++ LF.

(** The body of the second [try]. *)
Definition parse_filled_data (llm_response_text : json) : result json :=
  filled_data <~ loads llm_response_text ;;
  match filled_data with
  | JDict _ => Ok filled_data
  | _ => Raise (ValueError "LLM response was not a valid JSON object.")
  end.

Definition fill_form_endpoint (request_data : FillFormRequest) (settings : Settings)
  : io FillFormSuccessResponse :=
  let llm_service :=
    LLMService_init (llm_api_key settings) (llm_api_endpoint settings) in
  llm_response_text <-
    try_except (get_completion llm_service (prompt request_data))
      (fun e => raise (HTTPException 503 ("LLM service request failed: " ++ str e))) ;;
  filled_data <-
    try_except (lift (parse_filled_data llm_response_text))
      (fun e =>
         if is_JSONDecodeError e || is_ValueError e then
           raise (HTTPException 500 ("Failed to parse LLM response: " ++ str e))
         else raise e) ;;
  lift (FillFormSuccessResponse_init filled_data).

(** ** The reply the application sends

    A returned model is serialised and encoded with status 200; an
    [HTTPException] becomes its status code with its detail; anything else,
    also a reply that cannot be encoded, reaches [global_exception_handler]
    of app/main.py.  The detail of an [HTTPException] is made of the fixed
    texts of the source and of the message texts of the libraries, which
    are taken to hold no unpaired surrogate. *)

(** The mapping as pydantic serialises it for JSON: a new dict, filled in
    order, whose keys went through [to_string_lossy]. *)
Definition serialize_filled_data (data : list (string * string))
  : list (string * json) :=
  fold_left (fun acc kv => dict_set acc (to_string_lossy (fst kv)) (JStr (snd kv)))
            data [].

(** The first value that holds a surrogate. *)
Definition first_unencodable (data : list (string * string)) : string :=
  match find (fun kv => has_surrogate (snd kv)) data with
  | Some kv => snd kv
  | None => EmptyString
  end.

(** The values can be encoded as UTF-8: none holds a surrogate. *)
Definition values_encodable (data : list (string * string)) : bool :=
  forallb (fun kv => negb (has_surrogate (snd kv))) data.

Record HttpReply := {
  reply_status : Z;
  reply_body : json
}.

Definition global_exception_handler (e : exn) : HttpReply :=
  {| reply_status := 500;
     reply_body :=
       JDict [("status", JStr "error");
              ("message", JStr "An unexpected internal server error occurred.")] |}.

Definition reply_of (r : result FillFormSuccessResponse) : HttpReply :=
  match r with
  | Ok response =>
      if values_encodable (filled_data response) then
        {| reply_status := 200;
           reply_body :=
             JDict [("status", JStr (status response));
                    ("filled_data",
                     JDict (serialize_filled_data (filled_data response)))] |}
      else
        global_exception_handler
          (UnicodeEncodeError (first_unencodable (filled_data response)))
  | Raise (HTTPException code detail) =>
      {| reply_status := code; reply_body := JDict [("detail", JStr detail)] |}
  | Raise e => global_exception_handler e
  end.

(** [POST /api/v1/fill-form] with a body that validates as [request_data]. *)
Definition handle (request_data : FillFormRequest) (settings : Settings)
    (sent : list HttpRequest) : HttpReply * list HttpRequest :=
  let (r, sent') := fill_form_endpoint request_data settings sent in
  (reply_of r, sent').

End Relay.

(** ** Vocabulary of the statements *)

(** The request [get_completion] hands to [client.post]. *)
Definition completion_request (self : LLMService) (prompt : string) : HttpRequest :=
  {| request_url := api_endpoint self;
     request_headers := [("Authorization", "Bearer " ++ api_key self);
                 ("Content-Type", "application/json")];
     request_json := JDict [("model", JStr "deepseek-coder");
                            ("prompt", JStr prompt);
                            ("max_tokens", JInt 1500);
                            ("temperature", JFloat (FDec false 1 (-1)))];
     request_timeout := 30 |}.

(** The path [choices[0].message.content] of a decoded body, read as the
    specification words it: [choices] is a non-empty array, its first
    element an object, [message] an object of it, [content] a member of
    that. *)
Definition spec_content_path (body : json) : option json :=
  match body with
  | JDict top =>
      match dict_get top "choices" with
      | Some (JList (JDict choice :: _)) =>
          match dict_get choice "message" with
          | Some (JDict message) => dict_get message "content"
          | _ => None
          end
      | _ => None
      end
  | _ => None
  end.

(** The absences the specification names: [choices] missing, [choices]
    empty, [message] missing, [content] missing. *)
Inductive path_member_missing : json -> Prop :=
| choices_missing (top : list (string * json)) :
    dict_get top "choices" = None ->
    path_member_missing (JDict top)
| choices_empty (top : list (string * json)) :
    dict_get top "choices" = Some (JList []) ->
    path_member_missing (JDict top)
| message_missing (top choice : list (string * json)) (rest : list json) :
    dict_get top "choices" = Some (JList (JDict choice :: rest)) ->
    dict_get choice "message" = None ->
    path_member_missing (JDict top)
| content_missing (top choice message : list (string * json)) (rest : list json) :
    dict_get top "choices" = Some (JList (JDict choice :: rest)) ->
    dict_get choice "message" = Some (JDict message) ->
    dict_get message "content" = None ->
    path_member_missing (JDict top).

(** The JSON value of a body; [None] when the body is not valid JSON: its
    bytes do not decode, or the text they decode to does not parse. *)
Definition json_of_body (body : string) : option json :=
  match decode_body body with
  | Some doc => json_loads doc
  | None => None
  end.

(** The same path in a body; [None] also when the body is not valid JSON. *)
Definition spec_content_of_text (body : string) : option json :=
  match json_of_body body with
  | Some v => spec_content_path v
  | None => None
  end.

Definition is_success (response : HttpResponse) : bool :=
  (200 <=? status_code response) && (status_code response <=? 299).

(** The exception that leaves [get_completion] when the body of its [try]
    raises [e]. *)
Definition reraised (lib_message : exn -> string) (e : exn) : exn :=
  if is_HTTPStatusError e then e
  else if is_RequestError e then e
  else if is_JSONDecodeError e || is_KeyError e || is_ValueError e then
    ValueError ("Error parsing LLM API response: " ++ str lib_message e)
  else e.

(** Every value of the object is a string. *)
Definition all_str (entries : list (string * json)) : bool :=
  forallb (fun kv => match snd kv with JStr _ => true | _ => false end) entries.

(** The service the endpoint builds from the settings. *)
Definition service_of (settings : Settings) : LLMService :=
  LLMService_init (llm_api_key settings) (llm_api_endpoint settings).

(** The three classified failures of the completion client on a request:
    the transport fails, the upstream answers outside 2xx, or it answers 2xx
    with a body that lacks the content path. *)
Inductive completion_failure (post : HttpRequest -> result HttpResponse)
    (request : HttpRequest) : Prop :=
| transport_failure (msg : string) :
    post request = Raise (RequestError msg) ->
    completion_failure post request
| http_failure (response : HttpResponse) :
    post request = Ok response ->
    is_success response = false ->
    completion_failure post request
| extraction_failure (response : HttpResponse) :
    post request = Ok response ->
    is_success response = true ->
    spec_content_of_text (text response) = None ->
    completion_failure post request.

(** ** Stubs for concrete runs *)

Definition sample_message (e : exn) : string :=
  match e with
  | HTTPStatusError _ => "upstream status error"
  | JSONDecodeError _ => "Expecting value"
  | KeyError _ => "missing key"
  | IndexError => "index out of range"
  | TypeError operation _ => "unsupported operand for " ++ operation
  | AttributeError _ attribute => "no attribute " ++ attribute
  | ValidationError model _ => "validation error for " ++ model
  | _ => "error"
  end.

Definition upstream_replying (code : Z) (body : string) : HttpRequest -> result HttpResponse :=
  fun _ => Ok {| status_code := code; text := body |}.

Definition upstream_unreachable (msg : string) : HttpRequest -> result HttpResponse :=
  fun _ => Raise (RequestError msg).

(** An OpenAI-style envelope around a completion text that is already
    escaped as a JSON string. *)
Definition envelope (escaped_content : string) : string :=
  q "{`choices`: [{`message`: {`content`: `" ++ escaped_content ++ q "`}}]}".

Definition sample_settings : Settings :=
  {| llm_api_key := "sk-test";
     llm_api_endpoint := "https://llm.example/v1/completions";
     app_name := "AI Form Filler Backend";
     cors_origins := ["http://localhost:3000"] |}.

Definition sample_request : FillFormRequest :=
  FillFormRequest_init ["name"; "email"] "John Doe, john@example.com" None.

(** The completion texts of the specification's examples, and their escaped
    forms. *)
Definition happy_text : string :=
  q "{`name`: `John Doe`, `email`: `john@example.com`}".
Definition happy_escaped : string :=
  q "{\`name\`: \`John Doe\`, \`email\`: \`john@example.com\`}".

Definition chatty_text : string := q "Sure! Here's your data: {`name`: `John`}".
Definition chatty_escaped : string := q "Sure! Here's your data: {\`name\`: \`John\`}".

Definition array_text : string := q "[`John Doe`, `john@example.com`]".
Definition array_escaped : string := q "[\`John Doe\`, \`john@example.com\`]".

Definition null_value_text : string := q "{`name`: `John Doe`, `email`: null}".
Definition null_value_escaped : string := q "{\`name\`: \`John Doe\`, \`email\`: null}".

Definition typed_text : string := q "{`age`: 30, `address`: {`city`: `Paris`}}".
Definition typed_escaped : string := q "{\`age\`: 30, \`address\`: {\`city\`: \`Paris\`}}".

(** ** The request model as the route receives it *)

(** Validation of a value against [List[str]]: every element must be a
    [str]. *)
Fixpoint validate_List_str (items : list json) : option (list string) :=
  match items with
  | [] => Some []
  | JStr s :: rest =>
      match validate_List_str rest with
      | Some rest' => Some (s :: rest')
      | None => None
      end
  | _ :: _ => None
  end.

(** Validation of a decoded request body against [FillFormRequest]:
    [fields] and [source_content] are required, [prompt_template_id] is a
    [str], [null] or absent, and other members are ignored. *)
Definition FillFormRequest_validate (body : json) : option FillFormRequest :=
  match body with
  | JDict entries =>
      match dict_get entries "fields", dict_get entries "source_content" with
      | Some (JList items), Some (JStr content) =>
          match validate_List_str items with
          | Some names =>
              match dict_get entries "prompt_template_id" with
              | None => Some (FillFormRequest_init names content None)
              | Some JNull => Some (FillFormRequest_init names content (Some None))
              | Some (JStr template_id) =>
                  Some (FillFormRequest_init names content (Some (Some template_id)))
              | Some _ => None
              end
          | None => None
          end
      | _, _ => None
      end
  | _ => None
  end.

(** [request_data.model_dump()] *)
Definition FillFormRequest_dump (request_data : FillFormRequest) : json :=
  JDict [("fields", JList (map JStr (fields request_data)));
         ("source_content", JStr (source_content request_data));
         ("prompt_template_id",
          match prompt_template_id request_data with
          | Some template_id => JStr template_id
          | None => JNull
          end)].

(** ** app/core/config.py: the cached accessor *)

Section Config.

(** [Settings()]: what pydantic-settings makes of the environment. *)
Variable Settings_init : list (string * string) -> result Settings.

(** [get_settings()] under [lru_cache]: the cache is the state, and a call
    that raises leaves it empty. *)
Definition get_settings (environ : list (string * string)) (cache : option Settings)
  : result Settings * option Settings :=
  match cache with
  | Some settings => (Ok settings, cache)
  | None =>
      match Settings_init environ with
      | Ok settings => (Ok settings, Some settings)
      | Raise e => (Raise e, None)
      end
  end.

(** One call per environment, in turn. *)
Fixpoint get_settings_calls (environs : list (list (string * string)))
    (cache : option Settings) : list (result Settings) * option Settings :=
  match environs with
  | [] => ([], cache)
  | environ :: rest =>
      let (r, cache') := get_settings environ cache in
      let (rs, cache'') := get_settings_calls rest cache' in
      (r :: rs, cache'')
  end.

(** The route with its dependency [Depends(get_settings)]. *)
Definition fill_form_route (lib_message : exn -> string)
    (post : HttpRequest -> result HttpResponse) (request_data : FillFormRequest)
    (environ : list (string * string)) (cache : option Settings)
    (sent : list HttpRequest) : HttpReply * option Settings * list HttpRequest :=
  match get_settings environ cache with
  | (Ok settings, cache') =>
      let (reply, sent') := handle lib_message post request_data settings sent in
      (reply, cache', sent')
  | (Raise e, cache') => (global_exception_handler e, cache', sent)
  end.

End Config.

(** ** More vocabulary *)

(** The three fixed parts of the template, around the field list and the
    source content. *)
Definition prompt_head : string :=
  "You are an AI assistant tasked with filling out a form." ++ LF ++
  "Below are the fields of the form:" ++ LF ++
  "--- FIELDS START ---" ++ LF.

Definition prompt_middle : string :=
  LF ++ "--- FIELDS END ---" ++ LF ++
  LF ++
  "Here is the source content from which to extract the information:" ++ LF ++
  "--- CONTENT START ---" ++ LF.

Definition prompt_tail : string :=
  LF ++ "--- CONTENT END ---" ++ LF ++
  LF ++
  "Please extract the relevant information from the CONTENT and fill in each FIELD." ++ LF ++
  "Return the output as a JSON object where each key is a field name from the FIELDS list and its value is the corresponding extracted content." ++ LF ++
  q "If information for a field is not found, use an empty string or `Not Found` as its value." ++ LF ++
  "Ensure the output is only the JSON object itself, without any additional explanations or markings." ++ LF.

(** The string has no line feed. *)
Fixpoint no_line_feed (s : string) : bool :=
  match s with
  | EmptyString => true
  | String c rest => negb (Ascii.eqb c (ascii_of_nat 10)) && no_line_feed rest
  end.

(** The bulleted lines of a field list, each ended by a line feed, followed
    by what comes after the list. *)
Fixpoint field_lines (names : list string) (rest : string) : string :=
  match names with
  | [] => rest
  | name :: names' => "- " ++ name ++ LF ++ field_lines names' rest
  end.

(** The body of the reply of [global_exception_handler]. *)
Definition generic_error_body : json :=
  JDict [("status", JStr "error");
         ("message", JStr "An unexpected internal server error occurred.")].

Definition is_dict (v : json) : bool :=
  match v with JDict _ => true | _ => false end.

Definition is_text (v : json) : bool :=
  match v with JStr _ => true | _ => false end.

(** ** More stubs for concrete runs *)

Fixpoint environ_get (environ : list (string * string)) (name : string)
  : option string :=
  match environ with
  | [] => None
  | (k, v) :: rest => if String.eqb k name then Some v else environ_get rest name
  end.

(** A stand-in for [Settings()]: it wants the two required variables and
    takes the defaults for the rest. *)
Definition stub_Settings_init (environ : list (string * string)) : result Settings :=
  match environ_get environ "LLM_API_KEY", environ_get environ "LLM_API_ENDPOINT" with
  | Some key, Some endpoint =>
      Ok {| llm_api_key := key;
            llm_api_endpoint := endpoint;
            app_name := "AI Form Filler Backend";
            cors_origins := ["http://localhost:3000"] |}
  | _, _ => Raise (ValidationError "Settings" JNull)
  end.

Definition sample_environ : list (string * string) :=
  [("LLM_API_KEY", "sk-test");
   ("LLM_API_ENDPOINT", "https://llm.example/v1/completions")].

Definition other_settings : Settings :=
  {| llm_api_key := "sk-test";
     llm_api_endpoint := "https://llm.example/v1/completions";
     app_name := "Another name";
     cors_origins := [] |}.

(** ** Vocabulary for texts and parsed objects *)

(** The string has a zero byte. *)
Fixpoint has_nul (s : string) : bool :=
  match s with
  | EmptyString => false
  | String c rest => (N_of_ascii c =? 0)%N || has_nul rest
  end.

(** Some word among the tokens has a zero byte. *)
Definition word_has_nul (t : token) : bool :=
  match t with TWord w => has_nul w | _ => false end.

(** Every word among the tokens is a scalar. *)
Definition word_is_scalar (t : token) : bool :=
  match t with
  | TWord w => match scalar_of_word w with Some _ => true | None => false end
  | _ => true
  end.

(** The keys of an object are distinct: what a [dict] guarantees. *)
Definition distinct_keys (v : json) : Prop :=
  match v with
  | JDict entries => NoDup (map fst entries)
  | _ => True
  end.

Definition frame_distinct_keys (f : frame) : Prop :=
  match f with
  | FDict entries _ => NoDup (map fst entries)
  | FList _ => True
  end.

(** No key of the object holds a surrogate. *)
Definition encodable_keys (entries : list (string * json)) : bool :=
  forallb (fun kv => negb (has_surrogate (fst kv))) entries.

(** No string value of the object holds a surrogate. *)
Definition encodable_values (entries : list (string * json)) : bool :=
  forallb (fun kv => match snd kv with
                     | JStr s => negb (has_surrogate s)
                     | _ => true
                     end) entries.

(** The completion texts with an unpaired surrogate in a value and in a key,
    and their escaped forms. *)
Definition surrogate_value_text : string := q "{`a`: `\ud800`}".
Definition surrogate_value_escaped : string := q "{\`a\`: \`\\ud800\`}".
Definition surrogate_key_text : string := q "{`\ud800`: `a`}".
Definition surrogate_key_escaped : string := q "{\`\\ud800\`: \`a\`}".

(** The UTF-16 little-endian bytes of an ASCII text. *)
Fixpoint ascii_utf16_le (s : string) : string :=
  match s with
  | EmptyString => EmptyString
  | String c rest => String c (byte 0 ++ ascii_utf16_le rest)
  end.

(** * Properties *)

(** ** Strings *)

Lemma str_app_assoc (a b c : string) : (a ++ b) ++ c = a ++ (b ++ c).
Proof.
  induction a as [|x a IH]; simpl; [reflexivity | now rewrite IH].
Qed.

(** Every field has its bulleted line in the field list, between two line
    feeds once the list is framed by line feeds as the template does. *)
Lemma bullet_line_in_join (l : list string) (f : string) :
  In f l ->
  exists pre post,
    LF ++ join LF (map (fun field => "- " ++ field) l) ++ LF
    = pre ++ LF ++ "- " ++ f ++ LF ++ post.
Proof.
  induction l as [|x l IH]; intros Hin; [destruct Hin|].
  destruct Hin as [-> | Hin].
  - destruct l as [|y l].
    + exists EmptyString, EmptyString. reflexivity.
    + exists EmptyString, (join LF (map (fun field => "- " ++ field) (y :: l)) ++ LF).
      cbn [map join]. cbn [map join] in *.
      rewrite !str_app_assoc. reflexivity.
  - destruct l as [|y l]; [destruct Hin|].
    destruct (IH Hin) as (pre & post & E).
    exists (LF ++ "- " ++ x ++ pre), post.
    change (join LF (map (fun field => "- " ++ field) (x :: y :: l)))
      with (("- " ++ x) ++ LF ++ join LF (map (fun field => "- " ++ field) (y :: l))).
    rewrite !str_app_assoc. rewrite E. reflexivity.
Qed.

(** ** Dictionaries *)

Lemma dict_get_set_same (entries : list (string * json)) (key : string) (value : json) :
  dict_get (dict_set entries key value) key = Some value.
Proof.
  induction entries as [|[k v] rest IH]; simpl.
  - now rewrite String.eqb_refl.
  - destruct (String.eqb k key) eqn:E; simpl; rewrite E; [reflexivity | exact IH].
Qed.

Lemma dict_get_set_other (entries : list (string * json)) (key key' : string)
    (value : json) :
  key <> key' ->
  dict_get (dict_set entries key value) key' = dict_get entries key'.
Proof.
  intros Hne.
  induction entries as [|[k v] rest IH]; simpl.
  - destruct (String.eqb_spec key key'); [contradiction | reflexivity].
  - destruct (String.eqb_spec k key) as [->|Hk]; simpl.
    + destruct (String.eqb_spec key key'); [contradiction | reflexivity].
    + destruct (String.eqb k key'); [reflexivity | exact IH].
Qed.

(** ** Texts that parse *)

Lemma N_of_ascii_zero (c : ascii) : N_of_ascii c = 0%N -> c = ascii_of_N 0.
Proof.
  intros H. rewrite <- (ascii_N_embedding c). now rewrite H.
Qed.

Lemma has_nul_app (a b : string) : has_nul (a ++ b) = has_nul a || has_nul b.
Proof.
  induction a as [|c a IH]; simpl; [reflexivity|].
  rewrite IH. now rewrite orb_assoc.
Qed.

(** One step of the lexer keeps a zero byte in sight: in the word being read
    or in a word already among the tokens. *)
Lemma lex_step_nul (m m' : lex_mode) (toks toks' : list token) (c : ascii) :
  lex_step (m, toks) c = Some (m', toks') ->
  (match m with InWord acc => has_nul acc | _ => false end)
    || existsb word_has_nul toks || (N_of_ascii c =? 0)%N = true ->
  (match m' with InWord acc => has_nul acc | _ => false end)
    || existsb word_has_nul toks' = true.
Proof.
  intros Hstep H.
  destruct (N.eqb_spec (N_of_ascii c) 0) as [Hz|Hz].
  - apply N_of_ascii_zero in Hz. subst c.
    destruct m as [|acc|acc p|acc p|acc p seen value]; cbn in Hstep;
      try discriminate.
    + injection Hstep as <- <-. reflexivity.
    + injection Hstep as <- <-. cbn. unfold snoc. rewrite has_nul_app. cbn.
      now rewrite orb_true_r.
  - rewrite orb_false_r in H.
    destruct m as [|acc|acc p|acc p|acc p seen value]; cbn [lex_step] in Hstep.
    + cbn in H. unfold lex_idle in Hstep.
      destruct (is_whitespace c).
      { injection Hstep as <- <-. exact H. }
      destruct (structural c).
      { injection Hstep as <- <-. rewrite existsb_app, H. reflexivity. }
      destruct (Ascii.eqb c DQUOTE); injection Hstep as <- <-;
        rewrite H; now rewrite ?orb_true_r.
    + destruct (is_whitespace c || Ascii.eqb c DQUOTE
                || match structural c with Some _ => true | None => false end).
      * assert (Hacc : existsb word_has_nul (toks ++ [TWord acc]) = true).
        { rewrite existsb_app. cbn. rewrite orb_false_r.
          rewrite orb_comm. exact H. }
        unfold lex_idle in Hstep.
        destruct (is_whitespace c).
        { injection Hstep as <- <-. exact Hacc. }
        destruct (structural c).
        { injection Hstep as <- <-. rewrite existsb_app, Hacc. reflexivity. }
        destruct (Ascii.eqb c DQUOTE); injection Hstep as <- <-;
          rewrite Hacc; now rewrite ?orb_true_r.
      * injection Hstep as <- <-. unfold snoc. rewrite has_nul_app.
        apply orb_prop in H. destruct H as [H|H]; rewrite H;
          now rewrite ?orb_true_r.
    + cbn in H.
      destruct (Ascii.eqb c DQUOTE).
      { injection Hstep as <- <-. rewrite existsb_app, H. reflexivity. }
      destruct (Ascii.eqb c "\"%char).
      { injection Hstep as <- <-. exact H. }
      destruct (N_of_ascii c <? 32)%N; [discriminate|].
      injection Hstep as <- <-. exact H.
    + cbn in H.
      destruct (Ascii.eqb c "u"%char).
      { injection Hstep as <- <-. exact H. }
      destruct (escape_char c); [|discriminate].
      injection Hstep as <- <-. exact H.
    + cbn in H.
      destruct (hex_value c); [|discriminate].
      destruct (Nat.eqb seen 3).
      * injection Hstep as <- <-. unfold lex_code_unit.
        destruct p; repeat match goal with
                           | |- context [if ?b then _ else _] => destruct b
                           end; exact H.
      * injection Hstep as <- <-. exact H.
Qed.

(** A zero byte of the text ends up in a word. *)
Lemma lex_from_nul (text : string) :
  forall (m : lex_mode) (toks out : list token),
    lex_from (m, toks) text = Some out ->
    (match m with InWord acc => has_nul acc | _ => false end)
      || existsb word_has_nul toks || has_nul text = true ->
    existsb word_has_nul out = true.
Proof.
  induction text as [|c rest IH]; intros m toks out Hlex H.
  - cbn in Hlex. cbn in H. rewrite orb_false_r in H.
    destruct m; try discriminate; injection Hlex as <-.
    + exact H.
    + rewrite existsb_app. cbn. rewrite orb_false_r. now rewrite orb_comm.
  - cbn [lex_from] in Hlex.
    destruct (lex_step (m, toks) c) as [[m' toks']|] eqn:Hstep; [|discriminate].
    apply (IH m' toks' out Hlex).
    cbn [has_nul] in H.
    destruct (has_nul rest); [now rewrite orb_true_r|].
    rewrite orb_false_r in H. rewrite orb_false_r.
    exact (lex_step_nul _ _ _ _ _ Hstep H).
Qed.

(** The parser accepts only words that are scalars. *)
Lemma parse_from_scalars (toks : list token) :
  forall (st : parse_state) (v : json),
    parse_from st toks = Some v -> forallb word_is_scalar toks = true.
Proof.
  induction toks as [|t toks IH]; intros st v H; [reflexivity|].
  cbn [parse_from] in H.
  destruct (parse_step st t) as [st'|] eqn:Hstep; [|discriminate].
  cbn [forallb]. rewrite (IH st' v H), andb_true_r.
  destruct t; try reflexivity.
  destruct st as [ex stack]. cbn.
  destruct (scalar_of_word w) eqn:E; [reflexivity|].
  destruct ex as [first|first| | |d]; cbn in Hstep; try discriminate;
    destruct first; rewrite ?E in Hstep; discriminate.
Qed.

Lemma span_digits_nul (s d r : string) :
  span_digits s = (d, r) -> has_nul s = has_nul r.
Proof.
  revert d r. induction s as [|c s IH]; intros d r H; cbn in H.
  - now injection H as <- <-.
  - destruct (is_digit c) eqn:Hd.
    + destruct (span_digits s) as [d' r'] eqn:E. injection H as <- <-.
      cbn. rewrite (IH d' r' eq_refl).
      unfold is_digit in Hd.
      destruct (N.eqb_spec (N_of_ascii c) 0) as [Hz|]; [|reflexivity].
      rewrite Hz in Hd. discriminate.
    + now injection H as <- <-.
Qed.

(** A word with a zero byte is not a number. *)
Lemma parse_number_nul (w : string) (v : json) :
  parse_number w = Some v -> has_nul w = false.
Proof.
  unfold parse_number. intros H.
  destruct (strip_minus w) as [neg s1] eqn:Hm.
  assert (H1 : has_nul w = has_nul s1).
  { unfold strip_minus in Hm. destruct w as [|c w]; [now injection Hm as <- <-|].
    destruct (Ascii.eqb_spec c "-"%char) as [->|];
      injection Hm as <- <-; reflexivity. }
  destruct (span_digits s1) as [ip s2] eqn:Hs.
  rewrite H1, (span_digits_nul _ _ _ Hs).
  destruct (valid_int_part ip); [|discriminate].
  destruct (take_fraction s2) as [[frac s3]|] eqn:Hf; [|discriminate].
  destruct (take_exponent s3) as [ex|] eqn:He; [|discriminate].
  assert (H2 : has_nul s2 = has_nul s3).
  { unfold take_fraction in Hf. destruct s2 as [|c s2]; [now injection Hf as <- <-|].
    destruct (Ascii.eqb_spec c "."%char) as [->|].
    - destruct (span_digits s2) as [d r] eqn:Hd.
      destruct (String.eqb d EmptyString); [discriminate|].
      injection Hf as <- <-. cbn. exact (span_digits_nul _ _ _ Hd).
    - now injection Hf as <- <-. }
  rewrite H2. clear - He.
  unfold take_exponent in He. destruct s3 as [|c s3]; [reflexivity|].
  destruct (Ascii.eqb c "e"%char || Ascii.eqb c "E"%char) eqn:Hc; [|discriminate].
  assert (Hcz : (N_of_ascii c =? 0)%N = false).
  { destruct (N.eqb_spec (N_of_ascii c) 0) as [Hz|]; [|reflexivity].
    apply N_of_ascii_zero in Hz. subst c. discriminate. }
  cbn [has_nul]. rewrite Hcz. cbn.
  destruct s3 as [|s1 r].
  - cbn in He. discriminate.
  - destruct (Ascii.eqb_spec s1 "-"%char) as [->|Hn1].
    + destruct (span_digits r) as [d r2] eqn:Hd.
      destruct (String.eqb d EmptyString || negb (String.eqb r2 EmptyString)) eqn:Hr;
        [discriminate|].
      apply orb_false_elim in Hr. destruct Hr as [_ Hr].
      apply negb_false_iff, String.eqb_eq in Hr. subst r2.
      cbn. now rewrite (span_digits_nul _ _ _ Hd).
    + destruct (Ascii.eqb_spec s1 "+"%char) as [->|Hn2].
      * destruct (span_digits r) as [d r2] eqn:Hd.
        destruct (String.eqb d EmptyString || negb (String.eqb r2 EmptyString)) eqn:Hr;
          [discriminate|].
        apply orb_false_elim in Hr. destruct Hr as [_ Hr].
        apply negb_false_iff, String.eqb_eq in Hr. subst r2.
        cbn. now rewrite (span_digits_nul _ _ _ Hd).
      * destruct (span_digits (String s1 r)) as [d r2] eqn:Hd.
        destruct (String.eqb d EmptyString || negb (String.eqb r2 EmptyString)) eqn:Hr;
          [discriminate|].
        apply orb_false_elim in Hr. destruct Hr as [_ Hr].
        apply negb_false_iff, String.eqb_eq in Hr. subst r2.
        now rewrite (span_digits_nul _ _ _ Hd).
Qed.

Lemma scalar_of_word_nul (w : string) (v : json) :
  scalar_of_word w = Some v -> has_nul w = false.
Proof.
  unfold scalar_of_word.
  repeat match goal with
         | |- (if String.eqb w ?lit then _ else _) = _ -> _ =>
             destruct (String.eqb_spec w lit) as [->|_]; [reflexivity|]
         end.
  apply parse_number_nul.
Qed.

(** A text that parses has no zero byte: inside a string it is a control
    character, and outside it makes a word that is no scalar. *)
Lemma json_loads_no_nul (text : string) (v : json) :
  json_loads text = Some v -> has_nul text = false.
Proof.
  unfold json_loads, lex. intros H.
  destruct (negb (well_formed text) || String.prefix BOM_UTF8 text); [discriminate|].
  destruct (lex_from (Idle, []) text) as [toks|] eqn:Hlex; [|discriminate].
  destruct (has_nul text) eqn:Hn; [exfalso|reflexivity].
  pose proof (lex_from_nul text Idle [] toks Hlex) as Hw.
  cbn in Hw. rewrite Hn in Hw. specialize (Hw eq_refl).
  pose proof (parse_from_scalars toks _ _ H) as Hs.
  clear - Hw Hs. induction toks as [|t toks IH]; [discriminate|].
  cbn in Hw, Hs. apply andb_prop in Hs. destruct Hs as [Ht Hs].
  apply orb_prop in Hw. destruct Hw as [Hw|Hw]; [|exact (IH Hw Hs)].
  destruct t; try discriminate. cbn in Ht, Hw.
  destruct (scalar_of_word w) as [v|] eqn:E; [|discriminate].
  rewrite (scalar_of_word_nul _ _ E) in Hw. discriminate.
Qed.

Lemma prefix_cons (a : ascii) (p s : string) :
  String.prefix (String a p) s = true -> exists r, s = String a r.
Proof.
  destruct s as [|b s]; cbn; [discriminate|].
  destruct (ascii_dec a b) as [<-|]; [|discriminate].
  intros _. now exists s.
Qed.

Lemma zero_at_has_nul (i : nat) (b : string) :
  zero_at i b = true -> has_nul b = true.
Proof.
  unfold zero_at. revert i. induction b as [|c b IH]; intros i H; cbn in H.
  - discriminate.
  - cbn. destruct i as [|i].
    + now rewrite H.
    + rewrite (IH i H). now rewrite orb_true_r.
Qed.

(** The bytes of a text that parses are read as UTF-8 and decode to the
    text itself. *)
Lemma json_loads_decode_body (text : string) (v : json) :
  json_loads text = Some v -> decode_body text = Some text.
Proof.
  intros H. pose proof (json_loads_no_nul _ _ H) as Hn.
  unfold json_loads in H.
  destruct (well_formed text) eqn:Hw; [|discriminate].
  destruct (String.prefix BOM_UTF8 text) eqn:Hb; [discriminate|].
  clear H.
  assert (H0 : forall i, zero_at i text = false).
  { intros i. destruct (zero_at i text) eqn:E; [|reflexivity].
    rewrite (zero_at_has_nul _ _ E) in Hn. discriminate. }
  assert (Hp : forall n p, String.prefix (String (ascii_of_N n) p) text = true ->
                 n = 0%N \/ n = 254%N \/ n = 255%N -> False).
  { intros n p Hpre Hcase. destruct (prefix_cons _ _ _ Hpre) as (r & ->).
    destruct Hcase as [-> | [-> | ->]]; cbn in Hn, Hw; discriminate. }
  unfold decode_body, detect_encoding.
  destruct (String.prefix BOM_UTF32_BE text) eqn:E1.
  { exfalso. apply (Hp _ _ E1). now left. }
  destruct (String.prefix BOM_UTF32_LE text) eqn:E2.
  { exfalso. apply (Hp _ _ E2). now right; right. }
  destruct (String.prefix BOM_UTF16_BE text) eqn:E3.
  { exfalso. apply (Hp _ _ E3). now right; left. }
  destruct (String.prefix BOM_UTF16_LE text) eqn:E4.
  { exfalso. apply (Hp _ _ E4). now right; right. }
  cbn [orb]. rewrite Hb, !H0.
  assert (Hd : decode UTF_8 text = Some text) by (cbn; now rewrite Hw).
  destruct (4 <=? String.length text)%nat; [exact Hd|].
  destruct (Nat.eqb (String.length text) 2); exact Hd.
Qed.

(** ** Objects have distinct keys *)

Lemma dict_set_keys (entries : list (string * json)) (key : string) (value : json)
    (k : string) :
  In k (map fst (dict_set entries key value)) ->
  k = key \/ In k (map fst entries).
Proof.
  induction entries as [|[k' v'] rest IH]; cbn.
  - intros [<-|[]]. now left.
  - destruct (String.eqb k' key); cbn.
    + intros [<-|H]; right; [now left | now right].
    + intros [<-|H]; [right; now left|].
      destruct (IH H) as [->|H']; [now left | right; now right].
Qed.

Lemma dict_set_distinct (entries : list (string * json)) (key : string) (value : json) :
  NoDup (map fst entries) -> NoDup (map fst (dict_set entries key value)).
Proof.
  induction entries as [|[k v] rest IH]; cbn; intros H.
  - constructor; [intros [] | constructor].
  - inversion H as [|? ? Hnot Hrest]; subst.
    destruct (String.eqb_spec k key) as [->|Hne]; cbn.
    + constructor; assumption.
    + constructor; [|exact (IH Hrest)].
      intros Hin. destruct (dict_set_keys _ _ _ _ Hin) as [->|Hin'];
        [now apply Hne | now apply Hnot].
Qed.

Lemma dict_set_fresh (entries : list (string * json)) (key : string) (value : json) :
  ~ In key (map fst entries) ->
  dict_set entries key value = (entries ++ [(key, value)])%list.
Proof.
  induction entries as [|[k v] rest IH]; cbn; intros H; [reflexivity|].
  destruct (String.eqb_spec k key) as [->|Hne].
  - exfalso. apply H. now left.
  - rewrite IH; [reflexivity|]. intros Hin. apply H. now right.
Qed.

Lemma scalar_of_word_not_dict (w : string) (v : json) :
  scalar_of_word w = Some v -> distinct_keys v.
Proof.
  unfold scalar_of_word, parse_number. intros H.
  repeat match type of H with
         | (if ?b then _ else _) = _ => destruct b
         | (let (_, _) := ?p in _) = _ => destruct p
         | match ?x with _ => _ end = _ => destruct x
         end;
    try discriminate; injection H as <-; exact I.
Qed.

Lemma complete_distinct (v : json) (stack stack' : list frame) (ex' : expect) :
  distinct_keys v -> Forall frame_distinct_keys stack ->
  complete v stack = Some (ex', stack') ->
  match ex' with PDone d => distinct_keys d | _ => True end
  /\ Forall frame_distinct_keys stack'.
Proof.
  intros Hv Hs H. unfold complete in H.
  destruct stack as [|[items|entries [k|]] rest]; try discriminate;
    injection H as <- <-.
  - split; [exact Hv | constructor].
  - inversion Hs; subst. split; [exact I|]. constructor; [exact I | assumption].
  - inversion Hs as [|? ? Hf Hrest]; subst. split; [exact I|].
    constructor; [|exact Hrest]. cbn. apply dict_set_distinct. exact Hf.
Qed.

Lemma parse_step_distinct (ex ex' : expect) (stack stack' : list frame) (t : token) :
  Forall frame_distinct_keys stack ->
  parse_step (ex, stack) t = Some (ex', stack') ->
  match ex' with PDone d => distinct_keys d | _ => True end
  /\ Forall frame_distinct_keys stack'.
Proof.
  intros Hs H.
  assert (Hpop : forall f rest, stack = f :: rest ->
                   frame_distinct_keys f /\ Forall frame_distinct_keys rest).
  { intros f rest ->. inversion Hs; now split. }
  destruct ex as [first|first| | |d]; destruct t; cbn in H; try discriminate;
    try (destruct first; try discriminate).
  all: try (injection H as <- <-; split; [exact I|];
            try (constructor; [cbn; constructor | exact Hs]); exact Hs).
  all: try (destruct stack as [|[items|entries [k|]] rest]; try discriminate;
            destruct (Hpop _ _ eq_refl) as [Hf Hrest]).
  all: try (injection H as <- <-; split; [exact I|];
            constructor; [exact Hf | exact Hrest]).
  all: try (refine (complete_distinct _ _ _ _ _ _ H);
            [first [exact Hf | exact I] | first [exact Hrest | exact Hs]]).
  all: try (destruct (scalar_of_word w) as [v|] eqn:E; [|discriminate];
            exact (complete_distinct _ _ _ _ (scalar_of_word_not_dict _ _ E) Hs H)).
Qed.

Lemma parse_from_distinct (toks : list token) :
  forall (ex : expect) (stack : list frame) (v : json),
    Forall frame_distinct_keys stack ->
    match ex with PDone d => distinct_keys d | _ => True end ->
    parse_from (ex, stack) toks = Some v -> distinct_keys v.
Proof.
  induction toks as [|t toks IH]; intros ex stack v Hs Hex H; cbn [parse_from] in H.
  - destruct ex; try discriminate. injection H as <-. exact Hex.
  - destruct (parse_step (ex, stack) t) as [[ex' stack']|] eqn:Hstep; [|discriminate].
    destruct (parse_step_distinct _ _ _ _ _ Hs Hstep) as [Hex' Hs'].
    exact (IH ex' stack' v Hs' Hex' H).
Qed.

(** The keys of a parsed object are distinct. *)
Lemma json_loads_distinct_keys (text : string) (entries : list (string * json)) :
  json_loads text = Some (JDict entries) -> NoDup (map fst entries).
Proof.
  unfold json_loads. intros H.
  destruct (negb (well_formed text) || String.prefix BOM_UTF8 text); [discriminate|].
  destruct (lex text) as [toks|]; [|discriminate].
  exact (parse_from_distinct toks (PValue false) [] _ (Forall_nil _) I H).
Qed.

(** ** The mapping in the reply *)

Lemma serialize_fresh (data : list (string * string)) :
  forall acc : list (string * json),
    NoDup (map fst acc ++ map fst data) ->
    forallb (fun kv => negb (has_surrogate (fst kv))) data = true ->
    fold_left (fun acc kv => dict_set acc (to_string_lossy (fst kv)) (JStr (snd kv)))
      data acc
    = (acc ++ map (fun kv => (fst kv, JStr (snd kv))) data)%list.
Proof.
  induction data as [|[k v] data IH]; intros acc Hd Hk;
    cbn [fold_left map]; cbv beta; cbn [fst snd].
  - now rewrite app_nil_r.
  - cbn [forallb fst] in Hk. apply andb_prop in Hk. destruct Hk as [Hk Hks].
    apply negb_true_iff in Hk.
    assert (Hl : to_string_lossy k = k) by (unfold to_string_lossy; now rewrite Hk).
    rewrite Hl.
    cbn [map fst] in Hd.
    rewrite dict_set_fresh.
    + rewrite IH; [now rewrite <- app_assoc | | exact Hks].
      rewrite map_app. cbn. rewrite <- app_assoc. exact Hd.
    + apply NoDup_remove_2 in Hd. intros Hin. apply Hd.
      apply in_or_app. now left.
Qed.

(** A mapping with distinct keys, none with a surrogate, is serialised as it
    is. *)
Lemma serialize_filled_data_same (data : list (string * string)) :
  NoDup (map fst data) ->
  forallb (fun kv => negb (has_surrogate (fst kv))) data = true ->
  JDict (serialize_filled_data data) = json_of_data data.
Proof.
  intros Hd Hk. unfold serialize_filled_data, json_of_data.
  rewrite (serialize_fresh data [] Hd Hk). reflexivity.
Qed.

Lemma has_surrogate_replacement (s : string) :
  has_surrogate_from 0 (REPLACEMENT ++ s) = has_surrogate_from 0 s.
Proof. reflexivity. Qed.

(** The lossy form holds no surrogate, whatever the bytes. *)
Lemma replace_surrogates_clean (s : string) :
  (forall skip, has_surrogate_from skip (replace_surrogates_from skip 0 s) = false) /\
  (forall replace, has_surrogate_from 0 (replace_surrogates_from 0 replace s) = false).
Proof.
  induction s as [|c rest [IHskip IHrep]].
  - split; [intros [|skip] | intros [|replace]]; reflexivity.
  - assert (Hzero : has_surrogate_from 0 (replace_surrogates_from 0 0 (String c rest))
                    = false).
    { cbn [replace_surrogates_from].
      destruct (starts_surrogate (N_of_ascii c) rest) eqn:Hs.
      - rewrite has_surrogate_replacement. apply IHrep.
      - cbn [has_surrogate_from]. rewrite IHskip, orb_false_r.
        destruct (N_of_ascii c =? 237)%N eqn:Hc.
        * apply N.eqb_eq in Hc. rewrite Hc in Hs |- *.
          destruct rest as [|d rest']; [reflexivity|]. exact Hs.
        * destruct (replace_surrogates_from _ 0 rest); cbn [starts_surrogate];
            [reflexivity | now rewrite Hc]. }
    split.
    + intros [|skip]; [exact Hzero|].
      cbn [replace_surrogates_from has_surrogate_from]. apply IHskip.
    + intros [|replace]; [exact Hzero|].
      cbn [replace_surrogates_from]. rewrite has_surrogate_replacement. apply IHrep.
Qed.

Lemma to_string_lossy_clean (s : string) : has_surrogate (to_string_lossy s) = false.
Proof.
  unfold to_string_lossy. destruct (has_surrogate s) eqn:E; [|exact E].
  apply (proj1 (replace_surrogates_clean s) 0%nat).
Qed.

Lemma dict_set_encodable_keys (entries : list (string * json)) (key : string)
    (value : json) :
  encodable_keys entries = true -> has_surrogate key = false ->
  encodable_keys (dict_set entries key value) = true.
Proof.
  unfold encodable_keys.
  induction entries as [|[k v] rest IH]; intros H Hk.
  - cbn [dict_set forallb fst]. now rewrite Hk.
  - cbn [forallb fst] in H. apply andb_prop in H. destruct H as [H1 H2].
    cbn [dict_set].
    destruct (String.eqb k key) eqn:E; cbn [forallb fst].
    + now rewrite H1, H2.
    + now rewrite H1, IH.
Qed.

(** No key of the serialised mapping holds a surrogate. *)
Lemma serialize_filled_data_keys (data : list (string * string)) :
  encodable_keys (serialize_filled_data data) = true.
Proof.
  unfold serialize_filled_data.
  assert (H : forall acc, encodable_keys acc = true ->
    encodable_keys
      (fold_left (fun acc kv => dict_set acc (to_string_lossy (fst kv)) (JStr (snd kv)))
                 data acc) = true).
  { induction data as [|[k v] data IH]; intros acc Hacc; cbn [fold_left];
      [exact Hacc|].
    apply IH. apply dict_set_encodable_keys; [exact Hacc|].
    apply to_string_lossy_clean. }
  apply H. reflexivity.
Qed.

Lemma validate_json_of_data (data : list (string * string)) :
  FillFormSuccessResponse_init (json_of_data data)
  = Ok {| status := "success"; filled_data := data |}.
Proof.
  assert (Hv : validate_Dict_str_str
                 (map (fun kv => (fst kv, JStr (snd kv))) data) = Some data).
  { induction data as [|[k v] data IH]; simpl; [reflexivity | now rewrite IH]. }
  unfold FillFormSuccessResponse_init, json_of_data. now rewrite Hv.
Qed.

(** What validation keeps of an all-string object. *)
Lemma json_of_data_facts (data : list (string * string))
    (entries : list (string * json)) :
  json_of_data data = JDict entries ->
  map fst data = map fst entries /\
  forallb (fun kv => negb (has_surrogate (fst kv))) data = encodable_keys entries /\
  values_encodable data = encodable_values entries.
Proof.
  unfold json_of_data. intros H. injection H as <-.
  unfold encodable_keys, encodable_values, values_encodable.
  induction data as [|[k v] data (IH1 & IH2 & IH3)]; cbn; [now repeat split|].
  rewrite IH1, IH2, IH3. now repeat split.
Qed.

(** ** The completion client *)

Section Properties.

Variable lib_message : exn -> string.
Variable post : HttpRequest -> result HttpResponse.

Lemma completion_handler_reraised (A : Type) (e : exn) (sent : list HttpRequest) :
  @completion_handler lib_message A e sent = (Raise (reraised lib_message e), sent).
Proof.
  unfold completion_handler, reraised, raise.
  destruct (is_HTTPStatusError e); [reflexivity|].
  destruct (is_RequestError e); [reflexivity|].
  destruct (is_JSONDecodeError e || is_KeyError e || is_ValueError e); reflexivity.
Qed.

(** [get_completion] sends one request, whatever comes back. *)
Lemma get_completion_sent (self : LLMService) (prompt : string) (sent : list HttpRequest) :
  timeout self = 30 ->
  snd (get_completion lib_message post self prompt sent)
  = (sent ++ [completion_request self prompt])%list.
Proof.
  intros Ht.
  unfold get_completion, try_except, bind, client_post, lift, completion_request.
  rewrite Ht.
  destruct (post _) as [response|e]; [|now rewrite completion_handler_reraised].
  destruct (raise_for_status response) as [[]|e];
    [|now rewrite completion_handler_reraised].
  destruct (response_json response) as [response_data|e];
    [|now rewrite completion_handler_reraised].
  destruct (extract_content response_data) as [v|e];
    [reflexivity | now rewrite completion_handler_reraised].
Qed.

(** What [get_completion] returns, by what the upstream does. *)
Lemma get_completion_transport (self : LLMService) (prompt : string)
    (sent : list HttpRequest) (e : exn) :
  timeout self = 30 ->
  post (completion_request self prompt) = Raise e ->
  fst (get_completion lib_message post self prompt sent) = Raise (reraised lib_message e).
Proof.
  intros Ht Hp.
  unfold get_completion, try_except, bind, client_post, lift.
  unfold completion_request in Hp. rewrite <- Ht in Hp. rewrite Hp.
  now rewrite completion_handler_reraised.
Qed.

Lemma get_completion_response (self : LLMService) (prompt : string)
    (sent : list HttpRequest) (response : HttpResponse) :
  timeout self = 30 ->
  post (completion_request self prompt) = Ok response ->
  fst (get_completion lib_message post self prompt sent)
  = if is_success response then
      match decode_body (text response) with
      | None => Raise (reraised lib_message (UnicodeDecodeError (text response)))
      | Some doc =>
          match json_loads doc with
          | None => Raise (reraised lib_message (JSONDecodeError doc))
          | Some response_data =>
              match extract_content response_data with
              | Ok v => Ok v
              | Raise e => Raise (reraised lib_message e)
              end
          end
      end
    else Raise (HTTPStatusError response).
Proof.
  intros Ht Hp.
  unfold get_completion, try_except, bind, client_post, lift.
  unfold completion_request in Hp. rewrite <- Ht in Hp. rewrite Hp.
  unfold raise_for_status, is_success.
  destruct ((200 <=? status_code response) && (status_code response <=? 299)).
  - unfold response_json, loads_bytes, loads.
    destruct (decode_body (text response)) as [doc|].
    + destruct (json_loads doc) as [response_data|].
      * destruct (extract_content response_data) as [v|e];
          [reflexivity | now rewrite completion_handler_reraised].
      * now rewrite completion_handler_reraised.
    + now rewrite completion_handler_reraised.
  - now rewrite completion_handler_reraised.
Qed.

(** The extraction succeeds exactly on the bodies that have the path. *)
Lemma extract_content_path (response_data v : json) :
  extract_content response_data = Ok v <-> spec_content_path response_data = Some v.
Proof.
  unfold extract_content, spec_content_path, and_then.
  destruct response_data as [| | | |s|items|top]; simpl;
    try (split; discriminate).
  - destruct (str_contains "choices" s); split; discriminate.
  - destruct (existsb (is_str "choices") items); split; discriminate.
  - destruct (dict_get top "choices") as [choices|]; [|split; discriminate].
    destruct choices as [|b|n|f|s|items|entries]; simpl;
      try (split; discriminate).
    + destruct b; split; discriminate.
    + destruct (negb (n =? 0)); split; discriminate.
    + destruct f as [|neg|neg d e]; simpl; try (split; discriminate).
      destruct (negb (rounds_to_zero d e)); split; discriminate.
    + destruct (negb (s =? EmptyString)%string); [|split; discriminate].
      destruct (s =? EmptyString)%string; split; discriminate.
    + destruct items as [|choice rest]; [split; discriminate|].
      destruct choice as [| | | | | |choice]; simpl; try (split; discriminate).
      destruct (dict_get choice "message") as [message|]; [|split; discriminate].
      destruct message as [| | | |s|items|message]; simpl;
        try (split; discriminate).
      * destruct (str_contains "content" s); split; discriminate.
      * destruct (existsb (is_str "content") items); split; discriminate.
      * destruct (dict_get message "content") as [content|];
          [|split; discriminate].
        split; intros H; inversion H; reflexivity.
    + destruct entries; split; discriminate.
Qed.

Lemma extract_content_absent (response_data : json) :
  spec_content_path response_data = None ->
  exists e, extract_content response_data = Raise e.
Proof.
  intros Hnone.
  destruct (extract_content response_data) as [v|e] eqn:E; [|now exists e].
  apply extract_content_path in E. congruence.
Qed.

Lemma get_completion_fst (self : LLMService) (prompt : string)
    (sent1 sent2 : list HttpRequest) :
  fst (get_completion lib_message post self prompt sent1)
  = fst (get_completion lib_message post self prompt sent2).
Proof.
  unfold get_completion, try_except, bind, client_post, lift.
  destruct (post _) as [response|e];
    [|now rewrite !completion_handler_reraised].
  destruct (raise_for_status response) as [[]|e];
    [|now rewrite !completion_handler_reraised].
  destruct (response_json response) as [response_data|e];
    [|now rewrite !completion_handler_reraised].
  destruct (extract_content response_data) as [v|e];
    [reflexivity | now rewrite !completion_handler_reraised].
Qed.

(** ** The endpoint *)

(** The first [try]: whatever the completion client raises becomes an
    [HTTPException] with status 503. *)
Lemma endpoint_completion_raises (request_data : FillFormRequest)
    (settings : Settings) (sent sent' : list HttpRequest) (e : exn) :
  get_completion lib_message post (service_of settings) (prompt request_data) sent
    = (Raise e, sent') ->
  fill_form_endpoint lib_message post request_data settings sent
  = (Raise (HTTPException 503
              ("LLM service request failed: " ++ str lib_message e)), sent').
Proof.
  intros H. unfold fill_form_endpoint, bind, try_except.
  fold (service_of settings). rewrite H. reflexivity.
Qed.

(** The second [try] and the construction of the response model. *)
Lemma endpoint_completion_returns (request_data : FillFormRequest)
    (settings : Settings) (sent sent' : list HttpRequest) (v : json) :
  get_completion lib_message post (service_of settings) (prompt request_data) sent
    = (Ok v, sent') ->
  fill_form_endpoint lib_message post request_data settings sent
  = (match parse_filled_data v with
     | Ok filled_data => FillFormSuccessResponse_init filled_data
     | Raise e =>
         if is_JSONDecodeError e || is_ValueError e then
           Raise (HTTPException 500
                    ("Failed to parse LLM response: " ++ str lib_message e))
         else Raise e
     end, sent').
Proof.
  intros H. unfold fill_form_endpoint, bind, try_except, lift, raise.
  fold (service_of settings). rewrite H.
  destruct (parse_filled_data v) as [filled_data|e].
  - destruct (FillFormSuccessResponse_init filled_data); reflexivity.
  - destruct (is_JSONDecodeError e || is_ValueError e); reflexivity.
Qed.

Lemma handle_endpoint (request_data : FillFormRequest) (settings : Settings)
    (sent sent' : list HttpRequest) (r : result FillFormSuccessResponse) :
  fill_form_endpoint lib_message post request_data settings sent = (r, sent') ->
  handle lib_message post request_data settings sent = (reply_of r, sent').
Proof.
  intros H. unfold handle. rewrite H. reflexivity.
Qed.

(** The endpoint sends exactly the completion request, once. *)
Lemma endpoint_sent (request_data : FillFormRequest) (settings : Settings)
    (sent : list HttpRequest) :
  snd (fill_form_endpoint lib_message post request_data settings sent)
  = (sent ++ [completion_request (service_of settings) (prompt request_data)])%list.
Proof.
  pose proof (get_completion_sent (service_of settings) (prompt request_data)
                sent eq_refl) as Hs.
  destruct (get_completion lib_message post (service_of settings)
              (prompt request_data) sent) as [[v|e] sent'] eqn:E;
    simpl in Hs; subst sent'.
  - now rewrite (endpoint_completion_returns _ _ _ _ _ E).
  - now rewrite (endpoint_completion_raises _ _ _ _ _ E).
Qed.

Lemma endpoint_fst (request_data : FillFormRequest) (settings : Settings)
    (sent1 sent2 : list HttpRequest) :
  fst (fill_form_endpoint lib_message post request_data settings sent1)
  = fst (fill_form_endpoint lib_message post request_data settings sent2).
Proof.
  pose proof (get_completion_fst (service_of settings) (prompt request_data)
                sent1 sent2) as Hf.
  destruct (get_completion lib_message post (service_of settings)
              (prompt request_data) sent1) as [r1 s1] eqn:E1.
  destruct (get_completion lib_message post (service_of settings)
              (prompt request_data) sent2) as [r2 s2] eqn:E2.
  simpl in Hf. subst r2.
  destruct r1 as [v|e].
  - rewrite (endpoint_completion_returns _ _ _ _ _ E1),
      (endpoint_completion_returns _ _ _ _ _ E2). reflexivity.
  - rewrite (endpoint_completion_raises _ _ _ _ _ E1),
      (endpoint_completion_raises _ _ _ _ _ E2). reflexivity.
Qed.

(** ** The response model *)

Lemma validate_all_str (entries : list (string * json)) :
  all_str entries = true ->
  exists data,
    validate_Dict_str_str entries = Some data /\ json_of_data data = JDict entries.
Proof.
  unfold json_of_data.
  induction entries as [|[k v] rest IH]; simpl; intros H.
  - exists []. split; reflexivity.
  - destruct v; try discriminate.
    destruct (IH H) as (data & Hv & Hj).
    exists ((k, s) :: data). rewrite Hv. split; [reflexivity|].
    simpl. inversion Hj. reflexivity.
Qed.

Lemma validate_not_all_str (entries : list (string * json)) :
  all_str entries = false -> validate_Dict_str_str entries = None.
Proof.
  induction entries as [|[k v] rest IH]; simpl; intros H; [discriminate|].
  destruct v; try reflexivity.
  simpl in H. now rewrite (IH H).
Qed.

(** ** The contract of the endpoint *)

(** What the route replies when the endpoint returns a model built from a
    parsed object. *)
Lemma reply_of_parsed (text : string) (entries : list (string * json))
    (data : list (string * string)) :
  json_loads text = Some (JDict entries) ->
  json_of_data data = JDict entries ->
  reply_of (Ok {| status := "success"; filled_data := data |})
  = if encodable_values entries then
      {| reply_status := 200;
         reply_body :=
           JDict [("status", JStr "success");
                  ("filled_data", JDict (serialize_filled_data data))] |}
    else {| reply_status := 500;
            reply_body :=
              JDict [("status", JStr "error");
                     ("message",
                      JStr "An unexpected internal server error occurred.")] |}.
Proof.
  intros Hl Hj. destruct (json_of_data_facts _ _ Hj) as (_ & _ & Hv).
  unfold reply_of. cbn [filled_data status]. rewrite Hv.
  destruct (encodable_values entries); reflexivity.
Qed.

Lemma serialize_parsed (text : string) (entries : list (string * json))
    (data : list (string * string)) :
  json_loads text = Some (JDict entries) ->
  json_of_data data = JDict entries ->
  encodable_keys entries = true ->
  JDict (serialize_filled_data data) = JDict entries.
Proof.
  intros Hl Hj Hk. destruct (json_of_data_facts _ _ Hj) as (Hkeys & Hek & _).
  rewrite <- Hj. apply serialize_filled_data_same.
  - rewrite Hkeys. exact (json_loads_distinct_keys _ _ Hl).
  - now rewrite Hek.
Qed.

(** C1 (as amended): when the completion text is a JSON object whose values
    are all strings, and no key or value of it holds an unpaired surrogate,
    the endpoint returns a [FillFormSuccessResponse] with status [success]
    whose [filled_data] is the parsed mapping, and the reply is HTTP 200
    with that mapping. *)
Theorem fill_form_success (request_data : FillFormRequest) (settings : Settings)
    (sent sent' : list HttpRequest) (text : string)
    (entries : list (string * json)) :
  get_completion lib_message post (service_of settings) (prompt request_data) sent
    = (Ok (JStr text), sent') ->
  json_loads text = Some (JDict entries) ->
  all_str entries = true ->
  encodable_keys entries = true ->
  encodable_values entries = true ->
  exists response,
    fill_form_endpoint lib_message post request_data settings sent
      = (Ok response, sent') /\
    status response = "success" /\
    json_of_data (filled_data response) = JDict entries /\
    handle lib_message post request_data settings sent
      = ({| reply_status := 200;
            reply_body := JDict [("status", JStr "success");
                                 ("filled_data", JDict entries)] |}, sent').
Proof.
  intros Hc Hp Hs Hk Hv.
  destruct (validate_all_str entries Hs) as (data & Hd & Hj).
  pose proof (endpoint_completion_returns _ _ _ _ _ Hc) as He.
  unfold parse_filled_data, loads, and_then in He. rewrite Hp in He.
  unfold FillFormSuccessResponse_init in He. rewrite Hd in He.
  exists {| status := "success"; filled_data := data |}.
  split; [exact He|]. split; [reflexivity|]. split; [exact Hj|].
  rewrite (handle_endpoint _ _ _ _ _ He).
  rewrite (reply_of_parsed _ _ _ Hp Hj), Hv.
  now rewrite (serialize_parsed _ _ _ Hp Hj Hk).
Qed.

(** C2: when the completion client fails in one of the three classified
    ways (transport failure, status outside 2xx, 2xx body without the
    content path), the endpoint raises an [HTTPException] with status 503
    whose detail embeds the text of the failure, the reply is HTTP 503, and
    exactly one request has been sent. *)
Theorem upstream_failure_is_503 (request_data : FillFormRequest)
    (settings : Settings) (sent : list HttpRequest) :
  let request := completion_request (service_of settings) (prompt request_data) in
  completion_failure post request ->
  exists e,
    fst (get_completion lib_message post (service_of settings)
           (prompt request_data) sent) = Raise e /\
    (forall msg, post request = Raise (RequestError msg) -> str lib_message e = msg) /\
    (forall response, post request = Ok response -> is_success response = false ->
       e = HTTPStatusError response) /\
    fill_form_endpoint lib_message post request_data settings sent
      = (Raise (HTTPException 503
                  ("LLM service request failed: " ++ str lib_message e)),
         (sent ++ [request])%list) /\
    handle lib_message post request_data settings sent
      = ({| reply_status := 503;
            reply_body :=
              JDict [("detail",
                      JStr ("LLM service request failed: " ++ str lib_message e))] |},
         (sent ++ [request])%list).
Proof.
  intros request Hfail.
  pose proof (get_completion_sent (service_of settings) (prompt request_data)
                sent eq_refl) as Hsent.
  assert (Hraise : exists e,
             fst (get_completion lib_message post (service_of settings)
                    (prompt request_data) sent) = Raise e /\
             (forall msg, post request = Raise (RequestError msg) ->
                str lib_message e = msg) /\
             (forall response, post request = Ok response ->
                is_success response = false -> e = HTTPStatusError response)).
  { destruct Hfail as [msg Hp | response Hp Hs | response Hp Hs Hc].
    - exists (RequestError msg). split.
      + exact (get_completion_transport (service_of settings) _ sent _ eq_refl Hp).
      + split; intros ? Hp'; rewrite Hp in Hp'; [now inversion Hp' | discriminate].
    - exists (HTTPStatusError response). split.
      + rewrite (get_completion_response (service_of settings) _ sent _ eq_refl Hp), Hs.
        reflexivity.
      + split; intros ? Hp'; rewrite Hp in Hp'; [discriminate|].
        intros _. now inversion Hp'.
    - unfold spec_content_of_text, json_of_body in Hc.
      pose proof (get_completion_response (service_of settings) _ sent _ eq_refl Hp)
        as Hg.
      rewrite Hs in Hg.
      destruct (decode_body (text response)) as [doc|].
      + destruct (json_loads doc) as [response_data|].
        * destruct (extract_content_absent _ Hc) as (e & He).
          rewrite He in Hg. exists (reraised lib_message e). split; [exact Hg|].
          split; intros ? Hp'; rewrite Hp in Hp'; [discriminate|].
          intros Hs'. congruence.
        * eexists. split; [exact Hg|].
          split; intros ? Hp'; rewrite Hp in Hp'; [discriminate|].
          intros Hs'. congruence.
      + eexists. split; [exact Hg|].
        split; intros ? Hp'; rewrite Hp in Hp'; [discriminate|].
        intros Hs'. congruence. }
  destruct Hraise as (e & He & Hmsg & Hstatus).
  exists e. split; [exact He|]. split; [exact Hmsg|]. split; [exact Hstatus|].
  destruct (get_completion lib_message post (service_of settings)
              (prompt request_data) sent) as [r sent'] eqn:E.
  simpl in He, Hsent. subst r sent'.
  pose proof (endpoint_completion_raises _ _ _ _ _ E) as Hend.
  split; [exact Hend|].
  rewrite (handle_endpoint _ _ _ _ _ Hend). reflexivity.
Qed.

(** C3: when the completion client returns a text that is not valid JSON,
    or that parses to a value that is not an object, the endpoint raises an
    [HTTPException] with status 500 whose detail describes the parse
    failure; a text that parses to a JSON object never makes the endpoint
    raise an [HTTPException]. *)
Theorem parse_failure_is_500 (request_data : FillFormRequest)
    (settings : Settings) (sent sent' : list HttpRequest) (text : string) :
  get_completion lib_message post (service_of settings) (prompt request_data) sent
    = (Ok (JStr text), sent') ->
  (json_loads text = None ->
     let detail :=
       "Failed to parse LLM response: " ++ lib_message (JSONDecodeError text) in
     fill_form_endpoint lib_message post request_data settings sent
       = (Raise (HTTPException 500 detail), sent') /\
     handle lib_message post request_data settings sent
       = ({| reply_status := 500;
             reply_body := JDict [("detail", JStr detail)] |}, sent')) /\
  (forall v, json_loads text = Some v ->
     (forall entries, v <> JDict entries) ->
     let detail :=
       "Failed to parse LLM response: LLM response was not a valid JSON object." in
     fill_form_endpoint lib_message post request_data settings sent
       = (Raise (HTTPException 500 detail), sent') /\
     handle lib_message post request_data settings sent
       = ({| reply_status := 500;
             reply_body := JDict [("detail", JStr detail)] |}, sent')) /\
  (forall entries, json_loads text = Some (JDict entries) ->
     forall code detail,
       fst (fill_form_endpoint lib_message post request_data settings sent)
       <> Raise (HTTPException code detail)).
Proof.
  intros Hc.
  pose proof (endpoint_completion_returns _ _ _ _ _ Hc) as He.
  unfold parse_filled_data, loads, and_then in He.
  split; [|split].
  - intros Hp detail. rewrite Hp in He. simpl in He.
    split; [exact He|]. rewrite (handle_endpoint _ _ _ _ _ He). reflexivity.
  - intros v Hp Hshape detail. rewrite Hp in He.
    assert (Hend : fill_form_endpoint lib_message post request_data settings sent
                   = (Raise (HTTPException 500 detail), sent')).
    { destruct v; try exact He. now destruct (Hshape entries). }
    split; [exact Hend|]. rewrite (handle_endpoint _ _ _ _ _ Hend). reflexivity.
  - intros entries Hp code detail. rewrite Hp in He. rewrite He. simpl.
    destruct (validate_Dict_str_str entries); discriminate.
Qed.

(** C4 (as amended): when the completion text parses to a JSON object, the
    endpoint checks nothing about its keys.  When every value is a string
    the object is accepted as [filled_data] as it is; the reply is then HTTP
    200 when no value holds an unpaired surrogate, with the mapping as it is
    when no key holds one either, and is not HTTP 200 when a value holds
    one.  When some value is not a string the construction of
    [FillFormSuccessResponse] raises a validation error and the reply is not
    HTTP 200. *)
Theorem filled_data_validation (request_data : FillFormRequest)
    (settings : Settings) (sent sent' : list HttpRequest) (text : string)
    (entries : list (string * json)) :
  get_completion lib_message post (service_of settings) (prompt request_data) sent
    = (Ok (JStr text), sent') ->
  json_loads text = Some (JDict entries) ->
  fill_form_endpoint lib_message post request_data settings sent
    = (FillFormSuccessResponse_init (JDict entries), sent') /\
  (all_str entries = true ->
     exists data,
       FillFormSuccessResponse_init (JDict entries)
         = Ok {| status := "success"; filled_data := data |} /\
       json_of_data data = JDict entries /\
       (encodable_values entries = true ->
          handle lib_message post request_data settings sent
            = ({| reply_status := 200;
                  reply_body :=
                    JDict [("status", JStr "success");
                           ("filled_data", JDict (serialize_filled_data data))] |},
               sent') /\
          (encodable_keys entries = true ->
             JDict (serialize_filled_data data) = JDict entries)) /\
       (encodable_values entries = false ->
          reply_status (fst (handle lib_message post request_data settings sent))
            <> 200)) /\
  (all_str entries = false ->
     FillFormSuccessResponse_init (JDict entries)
       = Raise (ValidationError "FillFormSuccessResponse" (JDict entries)) /\
     reply_status (fst (handle lib_message post request_data settings sent)) <> 200).
Proof.
  intros Hc Hp.
  pose proof (endpoint_completion_returns _ _ _ _ _ Hc) as He.
  unfold parse_filled_data, loads, and_then in He. rewrite Hp in He.
  split; [exact He|].
  rewrite (handle_endpoint _ _ _ _ _ He). unfold FillFormSuccessResponse_init.
  split; intros Hs.
  - destruct (validate_all_str entries Hs) as (data & Hv & Hj).
    exists data. rewrite Hv. split; [reflexivity|]. split; [exact Hj|].
    rewrite (reply_of_parsed _ _ _ Hp Hj).
    split; intros Hval; rewrite Hval.
    + split; [reflexivity|]. intros Hk. exact (serialize_parsed _ _ _ Hp Hj Hk).
    + cbn. discriminate.
  - rewrite (validate_not_all_str entries Hs). split; [reflexivity|].
    simpl. discriminate.
Qed.

(** A body with one of the named absences makes the extraction raise its
    own [ValueError]. *)
Lemma extract_content_member_missing (response_data : json) :
  path_member_missing response_data ->
  extract_content response_data
  = Raise (ValueError "Could not extract valid content from LLM response.").
Proof.
  intros [top H | top H | top choice rest H1 H2 | top choice message rest H1 H2 H3];
    unfold extract_content, and_then; simpl; rewrite ?H, ?H1; simpl;
    rewrite ?H2; simpl; rewrite ?H3; reflexivity.
Qed.

(** C5: on a 2xx response, [get_completion] returns the value at
    [choices[0].message.content] of the decoded body, unchanged, when the
    body has that path; it raises when the body is not valid JSON (its
    bytes do not decode, or the text does not parse) or has no such path,
    with a [ValueError] when the body is not valid JSON or when [choices] is
    missing or empty, [message] is missing or [content] is missing. *)
Theorem get_completion_extraction (api_key api_endpoint prompt : string)
    (sent : list HttpRequest) (response : HttpResponse) :
  let self := LLMService_init api_key api_endpoint in
  post (completion_request self prompt) = Ok response ->
  is_success response = true ->
  (forall v, spec_content_of_text (text response) = Some v ->
     get_completion lib_message post self prompt sent
     = (Ok v, (sent ++ [completion_request self prompt])%list)) /\
  (spec_content_of_text (text response) = None ->
     exists e, fst (get_completion lib_message post self prompt sent) = Raise e) /\
  (decode_body (text response) = None ->
     fst (get_completion lib_message post self prompt sent)
     = Raise (ValueError ("Error parsing LLM API response: "
                          ++ lib_message (UnicodeDecodeError (text response))))) /\
  (forall doc,
     decode_body (text response) = Some doc ->
     json_loads doc = None ->
     fst (get_completion lib_message post self prompt sent)
     = Raise (ValueError ("Error parsing LLM API response: "
                          ++ lib_message (JSONDecodeError doc)))) /\
  (forall response_data,
     json_of_body (text response) = Some response_data ->
     path_member_missing response_data ->
     fst (get_completion lib_message post self prompt sent)
     = Raise (ValueError ("Error parsing LLM API response: "
                          ++ "Could not extract valid content from LLM response."))).
Proof.
  intros self Hp Hs.
  pose proof (get_completion_response self prompt sent response eq_refl Hp) as Hg.
  pose proof (get_completion_sent self prompt sent eq_refl) as Hsent.
  rewrite Hs in Hg. unfold spec_content_of_text, json_of_body.
  split; [|split; [|split; [|split]]].
  - intros v Hv.
    destruct (decode_body (text response)) as [doc|]; [|discriminate].
    destruct (json_loads doc) as [response_data|]; [|discriminate].
    apply extract_content_path in Hv. rewrite Hv in Hg.
    destruct (get_completion lib_message post self prompt sent) as [r sent'].
    simpl in Hg, Hsent. now subst.
  - intros Hn.
    destruct (decode_body (text response)) as [doc|]; [|eexists; exact Hg].
    destruct (json_loads doc) as [response_data|]; [|eexists; exact Hg].
    destruct (extract_content_absent _ Hn) as (e & He).
    rewrite He in Hg. eexists. exact Hg.
  - intros Hn. rewrite Hn in Hg. exact Hg.
  - intros doc Hd Hn. rewrite Hd, Hn in Hg. exact Hg.
  - intros response_data Hd Hm.
    destruct (decode_body (text response)) as [doc|]; [|discriminate].
    rewrite Hd in Hg.
    rewrite (extract_content_member_missing _ Hm) in Hg. exact Hg.
Qed.

(** C6: [get_completion] hands exactly one request to the transport: a
    POST to the configured endpoint with the header [Authorization: Bearer
    <api_key>], the JSON body made of the model identifier
    [deepseek-coder], the prompt, [max_tokens] 1500 and [temperature] 0.1,
    and a timeout of 30 seconds. *)
Theorem get_completion_request (api_key api_endpoint prompt : string)
    (sent : list HttpRequest) :
  snd (get_completion lib_message post (LLMService_init api_key api_endpoint)
         prompt sent)
  = (sent ++
     [{| request_url := api_endpoint;
         request_headers := [("Authorization", ("Bearer " ++ api_key)%string);
                     ("Content-Type", "application/json")];
         request_json := JDict [("model", JStr "deepseek-coder");
                                ("prompt", JStr prompt);
                                ("max_tokens", JInt 1500);
                                ("temperature", JFloat (FDec false 1 (-1)))];
         request_timeout := 30 |}])%list.
Proof.
  exact (get_completion_sent (LLMService_init api_key api_endpoint) prompt sent
           eq_refl).
Qed.

(** C7: the rendered prompt has, for every element of [fields], the line
    made of the bullet marker and that element, and has [source_content]
    unchanged between the content markers, whatever the content is. *)
Theorem prompt_lists_fields_and_content (request_data : FillFormRequest) :
  (forall f, In f (fields request_data) ->
     exists before after,
       prompt request_data = before ++ LF ++ "- " ++ f ++ LF ++ after) /\
  (exists before after, forall content template_id,
     prompt {| fields := fields request_data;
               source_content := content;
               prompt_template_id := template_id |}
     = before ++ "--- CONTENT START ---" ++ LF ++ content ++ LF
         ++ "--- CONTENT END ---" ++ LF ++ after).
Proof.
  split.
  - intros f Hin.
    destruct (bullet_line_in_join _ _ Hin) as (before & after & E).
    unfold prompt, fields_str.
    set (fs := join LF (map (fun field => "- " ++ field) (fields request_data))) in *.
    match goal with
    | |- exists _ _, ?a ++ LF ++ ?b ++ LF ++ ?c ++ LF ++ fs ++ LF ++ ?rest = _ =>
        exists (a ++ LF ++ b ++ LF ++ c ++ before), (after ++ rest);
        transitivity (a ++ LF ++ b ++ LF ++ c ++ (LF ++ fs ++ LF) ++ rest)
    end.
    + rewrite !str_app_assoc. reflexivity.
    + rewrite E. rewrite !str_app_assoc. reflexivity.
  - unfold prompt, fields_str. cbn [fields source_content].
    set (fs := join LF (map (fun field => "- " ++ field) (fields request_data))).
    match goal with
    | |- exists _ _, forall content _,
          ?a ++ LF ++ ?b ++ LF ++ ?c ++ LF ++ fs ++ LF ++ ?d ++ LF ++ LF ++ ?e
            ++ LF ++ "--- CONTENT START ---" ++ LF ++ content ++ LF
            ++ "--- CONTENT END ---" ++ LF ++ ?rest = _ =>
        exists (a ++ LF ++ b ++ LF ++ c ++ LF ++ fs ++ LF ++ d ++ LF ++ LF ++ e ++ LF),
          rest
    end.
    intros content template_id. rewrite !str_app_assoc. reflexivity.
Qed.

(** C8: handling the same request twice in a row sends the same completion
    request, so the same prompt, both times and gives the same reply; the
    reply does not depend on what was sent before. *)
Theorem repeated_request_same_reply (request_data : FillFormRequest)
    (settings : Settings) (sent : list HttpRequest) :
  let request := completion_request (service_of settings) (prompt request_data) in
  (exists reply,
     handle lib_message post request_data settings sent
       = (reply, (sent ++ [request])%list) /\
     handle lib_message post request_data settings (sent ++ [request])%list
       = (reply, (sent ++ [request; request])%list)) /\
  (forall sent1 sent2,
     fst (handle lib_message post request_data settings sent1)
     = fst (handle lib_message post request_data settings sent2)).
Proof.
  intros request.
  assert (Hh : forall s,
             handle lib_message post request_data settings s
             = (reply_of (fst (fill_form_endpoint lib_message post request_data
                                 settings s)),
                (s ++ [request])%list)).
  { intros s. pose proof (endpoint_sent request_data settings s) as Hs.
    unfold handle.
    destruct (fill_form_endpoint lib_message post request_data settings s)
      as [r s']. simpl in Hs. now subst. }
  split.
  - exists (reply_of (fst (fill_form_endpoint lib_message post request_data
                             settings sent))).
    split; [apply Hh|]. rewrite Hh.
    rewrite (endpoint_fst request_data settings (sent ++ [request])%list sent).
    rewrite <- app_assoc. reflexivity.
  - intros sent1 sent2. rewrite !Hh. simpl.
    now rewrite (endpoint_fst request_data settings sent1 sent2).
Qed.

(** C9: two requests with the same [fields] and [source_content] give the
    same prompt, the same endpoint result and the same reply, whatever
    their [prompt_template_id]. *)
Theorem prompt_template_id_ignored (r1 r2 : FillFormRequest)
    (settings : Settings) (sent : list HttpRequest) :
  fields r1 = fields r2 ->
  source_content r1 = source_content r2 ->
  prompt r1 = prompt r2 /\
  fill_form_endpoint lib_message post r1 settings sent
    = fill_form_endpoint lib_message post r2 settings sent /\
  handle lib_message post r1 settings sent
    = handle lib_message post r2 settings sent.
Proof.
  intros Hf Hc.
  assert (Hp : prompt r1 = prompt r2).
  { unfold prompt, fields_str. now rewrite Hf, Hc. }
  assert (He : fill_form_endpoint lib_message post r1 settings sent
               = fill_form_endpoint lib_message post r2 settings sent).
  { unfold fill_form_endpoint. now rewrite Hp. }
  split; [exact Hp|]. split; [exact He|].
  unfold handle. now rewrite He.
Qed.

(** C10: whatever exception the completion client raises, the endpoint
    turns it into an [HTTPException] with status 503 whose detail starts
    with [LLM service request failed: ], and the reply is HTTP 503: the
    exception does not reach the global handler. *)
Theorem completion_exception_is_503 (request_data : FillFormRequest)
    (settings : Settings) (sent sent' : list HttpRequest) (e : exn) :
  get_completion lib_message post (service_of settings) (prompt request_data) sent
    = (Raise e, sent') ->
  fill_form_endpoint lib_message post request_data settings sent
    = (Raise (HTTPException 503
                ("LLM service request failed: " ++ str lib_message e)), sent') /\
  handle lib_message post request_data settings sent
    = ({| reply_status := 503;
          reply_body :=
            JDict [("detail",
                    JStr ("LLM service request failed: " ++ str lib_message e))] |},
       sent').
Proof.
  intros Hc.
  pose proof (endpoint_completion_raises _ _ _ _ _ Hc) as He.
  split; [exact He|]. rewrite (handle_endpoint _ _ _ _ _ He). reflexivity.
Qed.

End Properties.

(** * Concrete runs *)

(** ** [json.loads] on the texts of the specification's examples *)

Example happy_text_parses :
  json_loads happy_text
  = Some (JDict [("name", JStr "John Doe"); ("email", JStr "john@example.com")]).
Proof. vm_compute. reflexivity. Qed.

Example chatty_text_invalid : json_loads chatty_text = None.
Proof. vm_compute. reflexivity. Qed.

Example array_text_parses :
  json_loads array_text = Some (JList [JStr "John Doe"; JStr "john@example.com"]).
Proof. vm_compute. reflexivity. Qed.

Example duplicate_key_last_wins :
  json_loads (q "{`a`: 1, `b`: [true, null, -2.50e3], `a`: `xé\n`} ")
  = Some (JDict [("a", JStr ("x" ++ utf8 233 ++ LF));
                 ("b", JList [JBool true; JNull; JFloat (FDec true 250 1)])]).
Proof. vm_compute. reflexivity. Qed.

Example trailing_comma_invalid :
  json_loads "[1,]" = None /\ json_loads (q "{`a`:1,}") = None
  /\ json_loads "01" = None /\ json_loads "1." = None /\ json_loads EmptyString = None.
Proof. vm_compute. repeat split. Qed.

(** ** Bodies in the encodings [response.json()] reads *)

Example encoded_bodies_answered :
  let reply :=
    {| reply_status := 200;
       reply_body :=
         JDict [("status", JStr "success");
                ("filled_data",
                 JDict [("name", JStr "John Doe");
                        ("email", JStr "john@example.com")])] |} in
  fst (handle sample_message
         (upstream_replying 200 (BOM_UTF8 ++ envelope happy_escaped))
         sample_request sample_settings []) = reply /\
  fst (handle sample_message
         (upstream_replying 200 (ascii_utf16_le (envelope happy_escaped)))
         sample_request sample_settings []) = reply /\
  fst (handle sample_message
         (upstream_replying 200 (BOM_UTF16_LE ++ ascii_utf16_le (envelope happy_escaped)))
         sample_request sample_settings []) = reply /\
  json_loads (BOM_UTF8 ++ envelope happy_escaped) = None.
Proof. vm_compute. repeat split. Qed.

Example surrogate_key_rewritten :
  fst (handle sample_message (upstream_replying 200 (envelope surrogate_key_escaped))
         sample_request sample_settings [])
  = {| reply_status := 200;
       reply_body :=
         JDict [("status", JStr "success");
                ("filled_data",
                 JDict [(REPLACEMENT ++ REPLACEMENT ++ REPLACEMENT, JStr "a")])] |}.
Proof. vm_compute. reflexivity. Qed.

(** ** The endpoint against stubbed upstreams *)

Lemma fill_form_success_witness :
  let post := upstream_replying 200 (envelope happy_escaped) in
  exists response,
    fill_form_endpoint sample_message post sample_request sample_settings []
      = (Ok response,
         [completion_request (service_of sample_settings) (prompt sample_request)]) /\
    status response = "success" /\
    json_of_data (filled_data response)
      = JDict [("name", JStr "John Doe"); ("email", JStr "john@example.com")] /\
    handle sample_message post sample_request sample_settings []
      = ({| reply_status := 200;
            reply_body :=
              JDict [("status", JStr "success");
                     ("filled_data",
                      JDict [("name", JStr "John Doe");
                             ("email", JStr "john@example.com")])] |},
         [completion_request (service_of sample_settings) (prompt sample_request)]).
Proof.
  intros post.
  apply (fill_form_success sample_message post sample_request sample_settings []
           [completion_request (service_of sample_settings) (prompt sample_request)]
           happy_text);
    vm_compute; reflexivity.
Defined.

(** C1 as stated fails: the first completion text below is a valid JSON
    object, yet constructing the response model raises and the reply is not
    200; the second is a valid JSON object of strings, yet its value cannot
    be encoded and the reply is the one of the global handler. *)
Lemma fill_form_success_counterexample :
  let post := upstream_replying 200 (envelope null_value_escaped) in
  let post' := upstream_replying 200 (envelope surrogate_value_escaped) in
  (fst (get_completion sample_message post (service_of sample_settings)
          (prompt sample_request) []) = Ok (JStr null_value_text) /\
   json_loads null_value_text
     = Some (JDict [("name", JStr "John Doe"); ("email", JNull)]) /\
   fst (fill_form_endpoint sample_message post sample_request sample_settings [])
     = Raise (ValidationError "FillFormSuccessResponse"
                (JDict [("name", JStr "John Doe"); ("email", JNull)])) /\
   reply_status (fst (handle sample_message post sample_request sample_settings []))
     <> 200) /\
  (fst (get_completion sample_message post' (service_of sample_settings)
          (prompt sample_request) []) = Ok (JStr surrogate_value_text) /\
   json_loads surrogate_value_text
     = Some (JDict [("a", JStr (byte 237 ++ byte 160 ++ byte 128))]) /\
   fst (fill_form_endpoint sample_message post' sample_request sample_settings [])
     = Ok {| status := "success";
             filled_data := [("a", byte 237 ++ byte 160 ++ byte 128)] |} /\
   fst (handle sample_message post' sample_request sample_settings [])
     = {| reply_status := 500; reply_body := generic_error_body |}).
Proof.
  vm_compute. repeat split. discriminate.
Qed.

Lemma upstream_failure_is_503_witness :
  (exists e,
     fst (get_completion sample_message (upstream_unreachable "timed out")
            (service_of sample_settings) (prompt sample_request) []) = Raise e /\
     fst (handle sample_message (upstream_unreachable "timed out")
            sample_request sample_settings [])
     = {| reply_status := 503;
          reply_body :=
            JDict [("detail",
                    JStr ("LLM service request failed: " ++ str sample_message e))] |})
  /\
  (exists e,
     fst (get_completion sample_message (upstream_replying 429 "slow down")
            (service_of sample_settings) (prompt sample_request) []) = Raise e /\
     fst (handle sample_message (upstream_replying 429 "slow down")
            sample_request sample_settings [])
     = {| reply_status := 503;
          reply_body :=
            JDict [("detail",
                    JStr ("LLM service request failed: " ++ str sample_message e))] |})
  /\
  (exists e,
     fst (get_completion sample_message (upstream_replying 200 (q "{`choices`: []}"))
            (service_of sample_settings) (prompt sample_request) []) = Raise e /\
     fst (handle sample_message (upstream_replying 200 (q "{`choices`: []}"))
            sample_request sample_settings [])
     = {| reply_status := 503;
          reply_body :=
            JDict [("detail",
                    JStr ("LLM service request failed: " ++ str sample_message e))] |}).
Proof.
  split; [|split].
  - destruct (upstream_failure_is_503 sample_message (upstream_unreachable "timed out")
                sample_request sample_settings []
                (transport_failure _ _ "timed out" eq_refl))
      as (e & He & _ & _ & _ & Hh).
    exists e. split; [exact He | now rewrite Hh].
  - destruct (upstream_failure_is_503 sample_message (upstream_replying 429 "slow down")
                sample_request sample_settings []
                (http_failure _ _ {| status_code := 429; text := "slow down" |}
                   eq_refl eq_refl))
      as (e & He & _ & _ & _ & Hh).
    exists e. split; [exact He | now rewrite Hh].
  - destruct (upstream_failure_is_503 sample_message
                (upstream_replying 200 (q "{`choices`: []}"))
                sample_request sample_settings []
                (extraction_failure _ _
                   {| status_code := 200; text := q "{`choices`: []}" |}
                   eq_refl eq_refl eq_refl))
      as (e & He & _ & _ & _ & Hh).
    exists e. split; [exact He | now rewrite Hh].
Defined.

Lemma parse_failure_is_500_witness :
  reply_status
    (fst (handle sample_message (upstream_replying 200 (envelope chatty_escaped))
            sample_request sample_settings [])) = 500 /\
  fst (handle sample_message (upstream_replying 200 (envelope array_escaped))
         sample_request sample_settings [])
  = {| reply_status := 500;
       reply_body :=
         JDict [("detail",
                 JStr "Failed to parse LLM response: LLM response was not a valid JSON object.")] |} /\
  (forall code detail,
     fst (fill_form_endpoint sample_message
            (upstream_replying 200 (envelope happy_escaped))
            sample_request sample_settings [])
     <> Raise (HTTPException code detail)).
Proof.
  pose (sent' := [completion_request (service_of sample_settings)
                    (prompt sample_request)]).
  split; [|split].
  - assert (Hc : get_completion sample_message
                   (upstream_replying 200 (envelope chatty_escaped))
                   (service_of sample_settings) (prompt sample_request) []
                 = (Ok (JStr chatty_text), sent')) by (vm_compute; reflexivity).
    destruct (parse_failure_is_500 sample_message _ _ _ _ _ _ Hc) as (H & _ & _).
    destruct (H chatty_text_invalid) as (_ & Hh). now rewrite Hh.
  - assert (Hc : get_completion sample_message
                   (upstream_replying 200 (envelope array_escaped))
                   (service_of sample_settings) (prompt sample_request) []
                 = (Ok (JStr array_text), sent')) by (vm_compute; reflexivity).
    destruct (parse_failure_is_500 sample_message _ _ _ _ _ _ Hc) as (_ & H & _).
    destruct (H _ array_text_parses) as (_ & Hh); [discriminate|].
    now rewrite Hh.
  - assert (Hc : get_completion sample_message
                   (upstream_replying 200 (envelope happy_escaped))
                   (service_of sample_settings) (prompt sample_request) []
                 = (Ok (JStr happy_text), sent')) by (vm_compute; reflexivity).
    destruct (parse_failure_is_500 sample_message _ _ _ _ _ _ Hc) as (_ & _ & H).
    exact (H _ happy_text_parses).
Defined.

Lemma filled_data_validation_witness :
  let parsed := [("age", JInt 30); ("address", JDict [("city", JStr "Paris")])] in
  let sent' := [completion_request (service_of sample_settings)
                  (prompt sample_request)] in
  (FillFormSuccessResponse_init (JDict parsed)
     = Raise (ValidationError "FillFormSuccessResponse" (JDict parsed)) /\
   reply_status
     (fst (handle sample_message (upstream_replying 200 (envelope typed_escaped))
             sample_request sample_settings [])) <> 200) /\
  handle sample_message
    (upstream_replying 200 (envelope (q "{\`city\`: \`Paris\`}")))
    sample_request sample_settings []
  = ({| reply_status := 200;
        reply_body := JDict [("status", JStr "success");
                             ("filled_data", JDict [("city", JStr "Paris")])] |},
     sent') /\
  reply_status
    (fst (handle sample_message
            (upstream_replying 200 (envelope surrogate_value_escaped))
            sample_request sample_settings [])) <> 200.
Proof.
  intros parsed sent'.
  split; [|split].
  - assert (Hc : get_completion sample_message
                   (upstream_replying 200 (envelope typed_escaped))
                   (service_of sample_settings) (prompt sample_request) []
                 = (Ok (JStr typed_text), sent')) by (vm_compute; reflexivity).
    assert (Hp : json_loads typed_text = Some (JDict parsed))
      by (vm_compute; reflexivity).
    destruct (filled_data_validation sample_message _ sample_request
                sample_settings [] _ typed_text parsed Hc Hp) as (_ & _ & Hbad).
    apply Hbad. vm_compute. reflexivity.
  - assert (Hc : get_completion sample_message
                   (upstream_replying 200 (envelope (q "{\`city\`: \`Paris\`}")))
                   (service_of sample_settings) (prompt sample_request) []
                 = (Ok (JStr (q "{`city`: `Paris`}")), sent'))
      by (vm_compute; reflexivity).
    assert (Hp : json_loads (q "{`city`: `Paris`}")
                 = Some (JDict [("city", JStr "Paris")]))
      by (vm_compute; reflexivity).
    destruct (filled_data_validation sample_message _ sample_request
                sample_settings [] _ _ _ Hc Hp) as (_ & Hgood & _).
    destruct (Hgood eq_refl) as (data & _ & _ & Hval & _).
    destruct (Hval eq_refl) as (Hh & Hsame).
    rewrite Hh. now rewrite (Hsame eq_refl).
  - assert (Hc : get_completion sample_message
                   (upstream_replying 200 (envelope surrogate_value_escaped))
                   (service_of sample_settings) (prompt sample_request) []
                 = (Ok (JStr surrogate_value_text), sent'))
      by (vm_compute; reflexivity).
    assert (Hp : json_loads surrogate_value_text
                 = Some (JDict [("a", JStr (utf8 55296))]))
      by (vm_compute; reflexivity).
    destruct (filled_data_validation sample_message _ sample_request
                sample_settings [] _ _ _ Hc Hp) as (_ & Hgood & _).
    destruct (Hgood eq_refl) as (data & _ & _ & _ & Hbad).
    apply Hbad. vm_compute. reflexivity.
Defined.

(** C4 as stated fails: an object with a number and a nested object as
    values is not returned with HTTP 200. *)
Lemma filled_data_validation_counterexample :
  let post := upstream_replying 200 (envelope typed_escaped) in
  fst (get_completion sample_message post (service_of sample_settings)
         (prompt sample_request) []) = Ok (JStr typed_text) /\
  json_loads typed_text
    = Some (JDict [("age", JInt 30); ("address", JDict [("city", JStr "Paris")])]) /\
  (forall response,
     fst (fill_form_endpoint sample_message post sample_request sample_settings [])
     <> Ok response) /\
  reply_status (fst (handle sample_message post sample_request sample_settings []))
    <> 200.
Proof.
  vm_compute. repeat split; intros; discriminate.
Qed.

Lemma get_completion_extraction_witness :
  fst (get_completion sample_message (upstream_replying 200 (envelope happy_escaped))
         (service_of sample_settings) "prompt" []) = Ok (JStr happy_text) /\
  fst (get_completion sample_message
         (upstream_replying 200 (q "{`choices`: [{`message`: {`content`: `  x  `}}]}"))
         (service_of sample_settings) "prompt" []) = Ok (JStr "  x  ") /\
  fst (get_completion sample_message
         (upstream_replying 200 (BOM_UTF8 ++ envelope happy_escaped))
         (service_of sample_settings) "prompt" []) = Ok (JStr happy_text) /\
  (exists e,
     fst (get_completion sample_message (upstream_replying 200 (q "{`choices`: [`x`]}"))
            (service_of sample_settings) "prompt" []) = Raise e) /\
  fst (get_completion sample_message (upstream_replying 200 (byte 255 ++ "{}"))
         (service_of sample_settings) "prompt" [])
  = Raise (ValueError "Error parsing LLM API response: error") /\
  fst (get_completion sample_message (upstream_replying 200 "<html>")
         (service_of sample_settings) "prompt" [])
  = Raise (ValueError "Error parsing LLM API response: Expecting value") /\
  fst (get_completion sample_message
         (upstream_replying 200 (q "{`choices`: [{`message`: {`role`: `assistant`}}]}"))
         (service_of sample_settings) "prompt" [])
  = Raise (ValueError "Error parsing LLM API response: Could not extract valid content from LLM response.").
Proof.
  assert (H : forall body,
             upstream_replying 200 body
               (completion_request
                  (LLMService_init (llm_api_key sample_settings)
                     (llm_api_endpoint sample_settings)) "prompt")
             = Ok {| status_code := 200; text := body |}) by reflexivity.
  split; [|split; [|split; [|split; [|split; [|split]]]]].
  - destruct (get_completion_extraction sample_message _ _ _ _ [] _
                (H (envelope happy_escaped)) eq_refl) as (Hok & _).
    refine (f_equal fst (Hok (JStr happy_text) _)). vm_compute. reflexivity.
  - destruct (get_completion_extraction sample_message _ _ _ _ [] _
                (H (q "{`choices`: [{`message`: {`content`: `  x  `}}]}")) eq_refl)
      as (Hok & _).
    refine (f_equal fst (Hok (JStr "  x  ") _)). vm_compute. reflexivity.
  - destruct (get_completion_extraction sample_message _ _ _ _ [] _
                (H (BOM_UTF8 ++ envelope happy_escaped)) eq_refl) as (Hok & _).
    refine (f_equal fst (Hok (JStr happy_text) _)). vm_compute. reflexivity.
  - destruct (get_completion_extraction sample_message _ _ _ _ [] _
                (H (q "{`choices`: [`x`]}")) eq_refl) as (_ & Habsent & _).
    apply Habsent. vm_compute. reflexivity.
  - destruct (get_completion_extraction sample_message _ _ _ _ [] _
                (H (byte 255 ++ "{}")) eq_refl) as (_ & _ & Hbytes & _).
    apply Hbytes. vm_compute. reflexivity.
  - destruct (get_completion_extraction sample_message _ _ _ _ [] _
                (H "<html>") eq_refl) as (_ & _ & _ & Hbad & _).
    apply (Hbad "<html>"); vm_compute; reflexivity.
  - destruct (get_completion_extraction sample_message _ _ _ _ [] _
                (H (q "{`choices`: [{`message`: {`role`: `assistant`}}]}")) eq_refl)
      as (_ & _ & _ & _ & Hmiss).
    apply (Hmiss (JDict [("choices",
                          JList [JDict [("message",
                                         JDict [("role", JStr "assistant")])]])])).
    + vm_compute. reflexivity.
    + apply content_missing
        with (choice := [("message", JDict [("role", JStr "assistant")])])
             (message := [("role", JStr "assistant")]) (rest := []);
        reflexivity.
Defined.

Lemma prompt_lists_fields_and_content_witness :
  (exists before after,
     prompt sample_request = before ++ LF ++ "- " ++ "email" ++ LF ++ after) /\
  (exists before after,
     prompt sample_request
     = before ++ "--- CONTENT START ---" ++ LF ++ "John Doe, john@example.com" ++ LF
         ++ "--- CONTENT END ---" ++ LF ++ after).
Proof.
  destruct (prompt_lists_fields_and_content sample_request) as (Hf & Hc).
  split.
  - apply Hf. simpl. right. left. reflexivity.
  - destruct Hc as (before & after & Hc).
    exists before, after. exact (Hc "John Doe, john@example.com" (Some "default_v1")).
Defined.

Lemma prompt_template_id_ignored_witness :
  let r1 := FillFormRequest_init ["name"; "email"] "John Doe, john@example.com" None in
  let r2 := FillFormRequest_init ["name"; "email"] "John Doe, john@example.com"
              (Some (Some "custom_v2")) in
  let post := upstream_replying 200 (envelope happy_escaped) in
  prompt_template_id r1 = Some "default_v1" /\
  prompt_template_id r2 = Some "custom_v2" /\
  prompt r1 = prompt r2 /\
  fill_form_endpoint sample_message post r1 sample_settings []
    = fill_form_endpoint sample_message post r2 sample_settings [] /\
  handle sample_message post r1 sample_settings []
    = handle sample_message post r2 sample_settings [].
Proof.
  intros r1 r2 post.
  split; [reflexivity|]. split; [reflexivity|].
  apply (prompt_template_id_ignored sample_message post r1 r2 sample_settings []);
    reflexivity.
Defined.

Lemma completion_exception_is_503_witness :
  let post := upstream_replying 200 (q "{`choices`: [`x`]}") in
  fst (get_completion sample_message post (service_of sample_settings)
         (prompt sample_request) []) = Raise (AttributeError "str" "get") /\
  fst (handle sample_message post sample_request sample_settings [])
  = {| reply_status := 503;
       reply_body :=
         JDict [("detail", JStr "LLM service request failed: no attribute get")] |}.
Proof.
  intros post.
  assert (Hc : get_completion sample_message post (service_of sample_settings)
                 (prompt sample_request) []
               = (Raise (AttributeError "str" "get"),
                  [completion_request (service_of sample_settings)
                     (prompt sample_request)])) by (vm_compute; reflexivity).
  destruct (completion_exception_is_503 sample_message post sample_request
              sample_settings [] _ _ Hc) as (_ & Hh).
  split; [now rewrite Hc | now rewrite Hh].
Defined.

(** * Further properties *)

(** ** Strings, again *)

Lemma str_app_inv_head (a x y : string) : a ++ x = a ++ y -> x = y.
Proof.
  induction a as [|c a IH]; simpl; intros H; [exact H|].
  injection H as H. exact (IH H).
Qed.

Lemma str_length_app (a b : string) :
  String.length (a ++ b) = (String.length a + String.length b)%nat.
Proof.
  induction a as [|c a IH]; simpl; [reflexivity | now rewrite IH].
Qed.

Lemma str_app_inv_tail (b x y : string) : x ++ b = y ++ b -> x = y.
Proof.
  revert y. induction x as [|c x IH]; intros [|d y] H; simpl in H.
  - reflexivity.
  - exfalso. apply (f_equal String.length) in H. simpl in H.
    rewrite str_length_app in H. lia.
  - exfalso. apply (f_equal String.length) in H. simpl in H.
    rewrite str_length_app in H. lia.
  - injection H as -> H. now rewrite (IH y H).
Qed.

(** Two texts that agree up to their first line feed agree before it and
    after it. *)
Lemma split_at_line_feed (f1 f2 x y : string) :
  no_line_feed f1 = true -> no_line_feed f2 = true ->
  f1 ++ LF ++ x = f2 ++ LF ++ y -> f1 = f2 /\ x = y.
Proof.
  revert f2. induction f1 as [|c f1 IH]; intros [|d f2] H1 H2 H; simpl in *.
  - injection H as H. now split.
  - injection H as Hc _. subst d.
    apply andb_prop in H2. destruct H2 as [H2 _].
    now rewrite Ascii.eqb_refl in H2.
  - injection H as Hc _. subst c.
    apply andb_prop in H1. destruct H1 as [H1 _].
    now rewrite Ascii.eqb_refl in H1.
  - injection H as -> H.
    apply andb_prop in H1. apply andb_prop in H2.
    destruct (IH f2 (proj2 H1) (proj2 H2) H) as [-> ->]. now split.
Qed.

(** ** The shape of the prompt *)

Lemma prompt_shape (request_data : FillFormRequest) :
  prompt request_data
  = prompt_head ++ fields_str request_data ++ prompt_middle
      ++ source_content request_data ++ prompt_tail.
Proof.
  unfold prompt, prompt_head, prompt_middle, prompt_tail.
  rewrite !str_app_assoc. reflexivity.
Qed.

(** A non-empty field list followed by a line feed is its bulleted lines. *)
Lemma fields_str_lines (name : string) (names : list string) (rest : string) :
  join LF (map (fun field => "- " ++ field) (name :: names)) ++ LF ++ rest
  = field_lines (name :: names) rest.
Proof.
  revert name. induction names as [|name' names IH]; intros name.
  - simpl. rewrite ?str_app_assoc. reflexivity.
  - change (join LF (map (fun field => "- " ++ field) (name :: name' :: names)))
      with (("- " ++ name) ++ LF
            ++ join LF (map (fun field => "- " ++ field) (name' :: names))).
    rewrite !str_app_assoc. rewrite (IH name'). reflexivity.
Qed.

(** The bulleted lines of single-line fields, followed by the end marker,
    determine the fields and what follows the marker. *)
Lemma field_lines_injective (l1 l2 : list string) (r1 r2 : string) :
  forallb no_line_feed l1 = true -> forallb no_line_feed l2 = true ->
  field_lines l1 ("--- FIELDS END ---" ++ r1)
    = field_lines l2 ("--- FIELDS END ---" ++ r2) ->
  l1 = l2 /\ r1 = r2.
Proof.
  revert l2. induction l1 as [|f1 l1 IH]; intros [|f2 l2] H1 H2 H.
  - split; [reflexivity|]. exact (str_app_inv_head _ _ _ H).
  - simpl in H. discriminate.
  - simpl in H. discriminate.
  - simpl in H1, H2. apply andb_prop in H1. apply andb_prop in H2.
    cbn [field_lines] in H.
    apply (str_app_inv_head "- ") in H.
    destruct (split_at_line_feed _ _ _ _ (proj1 H1) (proj1 H2) H) as [-> H'].
    destruct (IH l2 (proj2 H1) (proj2 H2) H') as [-> ->]. now split.
Qed.

(** ** What the prompt determines *)

(** X1: for a given field list, the prompt determines the source content:
    two requests with the same fields and the same prompt have the same
    source content. *)
Theorem prompt_source_content_injective (r1 r2 : FillFormRequest) :
  fields r1 = fields r2 ->
  prompt r1 = prompt r2 ->
  source_content r1 = source_content r2.
Proof.
  intros Hf Hp. rewrite !prompt_shape in Hp. unfold fields_str in Hp.
  rewrite Hf in Hp.
  apply str_app_inv_head in Hp. apply str_app_inv_head in Hp.
  apply str_app_inv_head in Hp. exact (str_app_inv_tail _ _ _ Hp).
Qed.

Lemma prompt_source_content_injective_witness :
  source_content sample_request
  = source_content (FillFormRequest_init ["name"; "email"]
                      "John Doe, john@example.com" (Some None)).
Proof.
  apply prompt_source_content_injective; reflexivity.
Defined.

(** X2: when no field name contains a line feed, the prompt determines the
    request: two such requests with the same prompt have the same fields and
    the same source content. *)
Theorem prompt_injective_single_line_fields (r1 r2 : FillFormRequest) :
  forallb no_line_feed (fields r1) = true ->
  forallb no_line_feed (fields r2) = true ->
  prompt r1 = prompt r2 ->
  fields r1 = fields r2 /\ source_content r1 = source_content r2.
Proof.
  intros H1 H2 Hp.
  rewrite !prompt_shape in Hp. apply str_app_inv_head in Hp.
  unfold fields_str in Hp.
  set (after := fun content : string =>
         LF ++ LF
         ++ "Here is the source content from which to extract the information:"
         ++ LF ++ "--- CONTENT START ---" ++ LF ++ content ++ prompt_tail).
  assert (Hm : forall fs content,
             fs ++ prompt_middle ++ content ++ prompt_tail
             = fs ++ LF ++ "--- FIELDS END ---" ++ after content).
  { intros fs content. unfold prompt_middle, after.
    rewrite !str_app_assoc. reflexivity. }
  rewrite !Hm in Hp.
  assert (Hafter : forall c1 c2, after c1 = after c2 -> c1 = c2).
  { intros c1 c2 H. unfold after in H.
    do 6 apply str_app_inv_head in H. exact (str_app_inv_tail _ _ _ H). }
  destruct (fields r1) as [|f1 l1], (fields r2) as [|f2 l2].
  - split; [reflexivity|]. cbn [map join] in Hp.
    apply Hafter. apply (str_app_inv_head "--- FIELDS END ---").
    apply (str_app_inv_head LF). exact Hp.
  - rewrite fields_str_lines in Hp. simpl in Hp. discriminate.
  - rewrite fields_str_lines in Hp. simpl in Hp. discriminate.
  - rewrite !fields_str_lines in Hp.
    destruct (field_lines_injective _ _ _ _ H1 H2 Hp) as [Hl Hr].
    split; [exact Hl | exact (Hafter _ _ Hr)].
Qed.

Lemma prompt_injective_single_line_fields_witness :
  fields sample_request = ["name"; "email"] /\
  source_content sample_request = "John Doe, john@example.com".
Proof.
  apply (prompt_injective_single_line_fields sample_request
           (FillFormRequest_init ["name"; "email"] "John Doe, john@example.com"
              (Some (Some "custom_v2")))); reflexivity.
Defined.

(** A field name with a line feed and a bullet inside renders exactly like
    two fields. *)
Lemma bullet_inside_field_name (f g : string) (rest : list string)
    (content : string) (id1 id2 : option string) :
  prompt {| fields := (f ++ LF ++ "- " ++ g) :: rest;
            source_content := content;
            prompt_template_id := id1 |}
  = prompt {| fields := f :: g :: rest;
              source_content := content;
              prompt_template_id := id2 |}.
Proof.
  rewrite !prompt_shape. unfold fields_str. cbn [fields source_content].
  f_equal. rewrite <- !(str_app_assoc _ prompt_middle).
  f_equal.
  destruct rest as [|h rest]; cbn [map join]; rewrite !str_app_assoc; reflexivity.
Qed.

Section FurtherProperties.

Variable lib_message : exn -> string.
Variable post : HttpRequest -> result HttpResponse.

(** The endpoint reads the request only through its prompt. *)
Lemma handle_by_prompt (r1 r2 : FillFormRequest) (settings : Settings)
    (sent : list HttpRequest) :
  prompt r1 = prompt r2 ->
  handle lib_message post r1 settings sent = handle lib_message post r2 settings sent.
Proof.
  intros Hp. unfold handle, fill_form_endpoint. now rewrite Hp.
Qed.

(** X3: field names are not escaped: a request with one field name that has
    a line feed and a bullet inside sends the same prompt, and gets the same
    reply, as the request with the two fields that name spells. *)
Theorem prompt_field_line_feed_ambiguity (f g : string) (rest : list string)
    (content : string) (id1 id2 : option string) (settings : Settings)
    (sent : list HttpRequest) :
  let joined := {| fields := (f ++ LF ++ "- " ++ g) :: rest;
                   source_content := content;
                   prompt_template_id := id1 |} in
  let separate := {| fields := f :: g :: rest;
                     source_content := content;
                     prompt_template_id := id2 |} in
  prompt joined = prompt separate /\
  handle lib_message post joined settings sent
  = handle lib_message post separate settings sent.
Proof.
  intros joined separate.
  pose proof (bullet_inside_field_name f g rest content id1 id2) as Hp.
  split; [exact Hp | exact (handle_by_prompt _ _ _ _ Hp)].
Qed.

(** ** The completion client on odd envelopes *)

(** Every exception that leaves [get_completion] went through its [except]
    clauses. *)
Lemma get_completion_raises_reraised (self : LLMService) (prompt : string)
    (sent : list HttpRequest) (e : exn) :
  fst (get_completion lib_message post self prompt sent) = Raise e ->
  exists e0, e = reraised lib_message e0.
Proof.
  unfold get_completion, try_except, bind, client_post, lift.
  destruct (post _) as [response|e0].
  - destruct (raise_for_status response) as [[]|e0].
    + destruct (response_json response) as [response_data|e0].
      * destruct (extract_content response_data) as [v|e0].
        -- discriminate.
        -- rewrite completion_handler_reraised. simpl. intros H.
           injection H as <-. now exists e0.
      * rewrite completion_handler_reraised. simpl. intros H.
        injection H as <-. now exists e0.
    + rewrite completion_handler_reraised. simpl. intros H.
      injection H as <-. now exists e0.
  - rewrite completion_handler_reraised. simpl. intros H.
    injection H as <-. now exists e0.
Qed.

(** X4: [get_completion] never raises a [KeyError] or a [JSONDecodeError],
    and a [ValueError] it raises always carries the prefix
    [Error parsing LLM API response: ]: every exception of these classes is
    replaced by such a [ValueError]. *)
Theorem get_completion_wraps_parse_errors (self : LLMService) (prompt : string)
    (sent : list HttpRequest) (e : exn) :
  fst (get_completion lib_message post self prompt sent) = Raise e ->
  is_JSONDecodeError e || is_KeyError e || is_ValueError e = true ->
  exists msg, e = ValueError ("Error parsing LLM API response: " ++ msg).
Proof.
  intros Hr Hclass.
  destruct (get_completion_raises_reraised _ _ _ _ Hr) as (e0 & ->).
  unfold reraised in *.
  destruct (is_HTTPStatusError e0) eqn:E1.
  { destruct e0; discriminate. }
  destruct (is_RequestError e0) eqn:E2.
  { destruct e0; discriminate. }
  destruct (is_JSONDecodeError e0 || is_KeyError e0 || is_ValueError e0) eqn:E3.
  - eexists. reflexivity.
  - congruence.
Qed.

(** What [get_completion] does with a 2xx response whose body decodes. *)
Lemma get_completion_decoded (self : LLMService) (prompt : string)
    (sent : list HttpRequest) (response : HttpResponse) (response_data : json) :
  timeout self = 30 ->
  post (completion_request self prompt) = Ok response ->
  is_success response = true ->
  json_loads (text response) = Some response_data ->
  fst (get_completion lib_message post self prompt sent)
  = match extract_content response_data with
    | Ok v => Ok v
    | Raise e => Raise (reraised lib_message e)
    end.
Proof.
  intros Ht Hp Hs Hd.
  rewrite (get_completion_response lib_message post self prompt sent response Ht Hp).
  now rewrite Hs, (json_loads_decode_body _ _ Hd), Hd.
Qed.

(** X5: a 2xx body whose [choices] member is falsy (not only [[]], also
    [null], [false], [0], [0.0], the empty string, the empty object) is
    answered with HTTP 503 and the detail that chains the prefixes of the
    endpoint and of the completion client before the extraction message. *)
Theorem falsy_choices_reply (request_data : FillFormRequest) (settings : Settings)
    (sent : list HttpRequest) (response : HttpResponse)
    (top : list (string * json)) (choices : json) :
  post (completion_request (service_of settings) (prompt request_data)) = Ok response ->
  is_success response = true ->
  json_loads (text response) = Some (JDict top) ->
  dict_get top "choices" = Some choices ->
  truthy choices = false ->
  fst (handle lib_message post request_data settings sent)
  = {| reply_status := 503;
       reply_body :=
         JDict [("detail",
                 JStr "LLM service request failed: Error parsing LLM API response: Could not extract valid content from LLM response.")] |}.
Proof.
  intros Hp Hs Hd Hc Hf.
  pose proof (get_completion_decoded (service_of settings) (prompt request_data)
                sent response _ eq_refl Hp Hs Hd) as Hg.
  unfold extract_content, and_then in Hg. simpl in Hg.
  rewrite Hc in Hg. rewrite Hf in Hg. simpl in Hg.
  destruct (get_completion lib_message post (service_of settings)
              (prompt request_data) sent) as [r sent'] eqn:E.
  simpl in Hg. subst r.
  rewrite (handle_endpoint _ _ _ _ _ _ _
             (endpoint_completion_raises _ _ _ _ _ _ _ E)).
  reflexivity.
Qed.

(** X6: when the first element of [choices] is not an object, the
    [AttributeError] of [.get] leaves [get_completion] as it is, without the
    parsing prefix, and the reply is HTTP 503. *)
Theorem first_choice_not_object (request_data : FillFormRequest) (settings : Settings)
    (sent : list HttpRequest) (response : HttpResponse)
    (top : list (string * json)) (choice : json) (others : list json) :
  post (completion_request (service_of settings) (prompt request_data)) = Ok response ->
  is_success response = true ->
  json_loads (text response) = Some (JDict top) ->
  dict_get top "choices" = Some (JList (choice :: others)) ->
  is_dict choice = false ->
  fst (get_completion lib_message post (service_of settings)
         (prompt request_data) sent)
    = Raise (AttributeError (type_name choice) "get") /\
  fst (handle lib_message post request_data settings sent)
  = {| reply_status := 503;
       reply_body :=
         JDict [("detail",
                 JStr ("LLM service request failed: "
                       ++ lib_message (AttributeError (type_name choice) "get")))] |}.
Proof.
  intros Hp Hs Hd Hc Hn.
  pose proof (get_completion_decoded (service_of settings) (prompt request_data)
                sent response _ eq_refl Hp Hs Hd) as Hg.
  unfold extract_content, and_then in Hg. simpl in Hg.
  rewrite Hc in Hg. simpl in Hg.
  assert (Hget : py_get choice "message" (JDict [])
                 = Raise (AttributeError (type_name choice) "get")).
  { destruct choice; try reflexivity. discriminate. }
  rewrite Hget in Hg. simpl in Hg.
  destruct (get_completion lib_message post (service_of settings)
              (prompt request_data) sent) as [r sent'] eqn:E.
  simpl in Hg. subst r. split; [reflexivity|].
  rewrite (handle_endpoint _ _ _ _ _ _ _
             (endpoint_completion_raises _ _ _ _ _ _ _ E)).
  reflexivity.
Qed.

(** X7: only the first element of [choices] is read: two 2xx bodies whose
    [choices] arrays start with the same element give the same result,
    whatever else the arrays and the bodies hold. *)
Theorem only_first_choice_is_read (self : LLMService) (prompt : string)
    (sent : list HttpRequest) (post' : HttpRequest -> result HttpResponse)
    (response response' : HttpResponse) (top top' : list (string * json))
    (choice : json) (others others' : list json) :
  timeout self = 30 ->
  post (completion_request self prompt) = Ok response ->
  post' (completion_request self prompt) = Ok response' ->
  is_success response = true ->
  is_success response' = true ->
  json_loads (text response) = Some (JDict top) ->
  json_loads (text response') = Some (JDict top') ->
  dict_get top "choices" = Some (JList (choice :: others)) ->
  dict_get top' "choices" = Some (JList (choice :: others')) ->
  get_completion lib_message post self prompt sent
  = get_completion lib_message post' self prompt sent.
Proof.
  intros Ht Hp Hp' Hs Hs' Hd Hd' Hc Hc'.
  pose proof (get_completion_decoded self prompt sent response _ Ht Hp Hs Hd) as Hg.
  pose proof (get_completion_response lib_message post' self prompt sent
                response' Ht Hp') as Hg'.
  rewrite Hs', (json_loads_decode_body _ _ Hd'), Hd' in Hg'.
  assert (He : extract_content (JDict top) = extract_content (JDict top')).
  { unfold extract_content, and_then. simpl. rewrite Hc, Hc'. reflexivity. }
  rewrite <- He in Hg'.
  pose proof (get_completion_sent lib_message post self prompt sent Ht) as Hsent.
  pose proof (get_completion_sent lib_message post' self prompt sent Ht) as Hsent'.
  destruct (get_completion lib_message post self prompt sent) as [r s1].
  destruct (get_completion lib_message post' self prompt sent) as [r' s2].
  simpl in *. congruence.
Qed.

(** ** The endpoint beyond its two [try] blocks *)

Lemma validate_some_all_str (entries : list (string * json))
    (data : list (string * string)) :
  validate_Dict_str_str entries = Some data -> all_str entries = true.
Proof.
  intros H. destruct (all_str entries) eqn:E; [reflexivity|].
  rewrite (validate_not_all_str entries E) in H. discriminate.
Qed.

(** X8: when the value at the content path is not a string (a number,
    [null], an object...), [get_completion] returns it, [json.loads] raises
    a [TypeError] that the second [except] does not catch, and the reply is
    the one of the global handler: HTTP 500 with the fixed message. *)
Theorem non_string_content_reply (request_data : FillFormRequest)
    (settings : Settings) (sent sent' : list HttpRequest) (v : json) :
  get_completion lib_message post (service_of settings) (prompt request_data) sent
    = (Ok v, sent') ->
  is_text v = false ->
  fill_form_endpoint lib_message post request_data settings sent
    = (Raise (TypeError "json.loads" (type_name v)), sent') /\
  handle lib_message post request_data settings sent
    = ({| reply_status := 500; reply_body := generic_error_body |}, sent').
Proof.
  intros Hc Hv.
  pose proof (endpoint_completion_returns _ _ _ _ _ _ _ Hc) as He.
  assert (Hp : parse_filled_data v = Raise (TypeError "json.loads" (type_name v))).
  { destruct v; try reflexivity. discriminate. }
  rewrite Hp in He. simpl in He.
  split; [exact He|]. rewrite (handle_endpoint _ _ _ _ _ _ _ He). reflexivity.
Qed.

(** X9: for a request that has validated as a [FillFormRequest], the reply
    has status 200, 500 or 503 and no other; it is 503 exactly when the
    completion client raised, and 200 exactly when the completion client
    returned a text that parses to a JSON object whose values are all
    strings, none of them with an unpaired surrogate. *)
Theorem reply_status_cases (request_data : FillFormRequest) (settings : Settings)
    (sent : list HttpRequest) :
  let completion :=
    fst (get_completion lib_message post (service_of settings)
           (prompt request_data) sent) in
  let code := reply_status (fst (handle lib_message post request_data settings sent)) in
  (code = 200 \/ code = 500 \/ code = 503) /\
  (code = 503 <-> exists e, completion = Raise e) /\
  (code = 200 <->
   exists text entries,
     completion = Ok (JStr text) /\
     json_loads text = Some (JDict entries) /\
     all_str entries = true /\
     encodable_values entries = true).
Proof.
  intros completion code. subst completion code.
  destruct (get_completion lib_message post (service_of settings)
              (prompt request_data) sent) as [[v|e] sent'] eqn:E.
  - pose proof (endpoint_completion_returns _ _ _ _ _ _ _ E) as He.
    rewrite (handle_endpoint _ _ _ _ _ _ _ He). cbn [fst].
    assert (Hcases :
      (exists text entries,
          v = JStr text /\ json_loads text = Some (JDict entries) /\
          all_str entries = true /\
          reply_status (reply_of
            match parse_filled_data v with
            | Ok filled_data => FillFormSuccessResponse_init filled_data
            | Raise e =>
                if is_JSONDecodeError e || is_ValueError e
                then Raise (HTTPException 500
                              ("Failed to parse LLM response: " ++ str lib_message e))
                else Raise e
            end) = if encodable_values entries then 200 else 500) \/
      ((forall text entries, v = JStr text ->
          json_loads text = Some (JDict entries) -> all_str entries = false) /\
       reply_status (reply_of
            match parse_filled_data v with
            | Ok filled_data => FillFormSuccessResponse_init filled_data
            | Raise e =>
                if is_JSONDecodeError e || is_ValueError e
                then Raise (HTTPException 500
                              ("Failed to parse LLM response: " ++ str lib_message e))
                else Raise e
            end) = 500)).
    { unfold parse_filled_data, loads, and_then.
      destruct v as [| | | |text| |]; try (right; split; [discriminate|reflexivity]).
      destruct (json_loads text) as [parsed|] eqn:Hl;
        [|right; split; [intros ? ? H; injection H as <-; congruence | reflexivity]].
      destruct parsed as [| | | | | |entries];
        try (right; split;
             [intros ? ? H; injection H as <-; congruence | reflexivity]).
      unfold FillFormSuccessResponse_init.
      destruct (validate_Dict_str_str entries) as [data|] eqn:Hv.
      - left. exists text, entries.
        pose proof (validate_some_all_str _ _ Hv) as Ha.
        destruct (validate_all_str entries Ha) as (data' & Hv' & Hj).
        assert (data' = data) by congruence. subst data'.
        split; [reflexivity|]. split; [exact Hl|]. split; [exact Ha|].
        rewrite (reply_of_parsed text entries data Hl Hj).
        destruct (encodable_values entries); reflexivity.
      - right. split; [|reflexivity].
        intros text' entries' H H'. injection H as <-.
        rewrite Hl in H'. injection H' as <-.
        destruct (all_str entries) eqn:Ha; [|reflexivity].
        destruct (validate_all_str entries Ha) as (data & Hd & _). congruence. }
    destruct Hcases as [(text & entries & -> & Hl & Ha & Hcode) | [Hno Hcode]];
      rewrite Hcode.
    + destruct (encodable_values entries) eqn:Hev.
      * split; [now left|]. split.
        -- split; [discriminate | intros (e & He'); discriminate].
        -- split; [|reflexivity]. intros _. exists text, entries.
           repeat split; assumption.
      * split; [right; now left|]. split.
        -- split; [discriminate | intros (e & He'); discriminate].
        -- split; [discriminate|].
           intros (text' & entries' & Hv & Hl' & _ & Hev'). injection Hv as <-.
           rewrite Hl in Hl'. injection Hl' as <-. congruence.
    + split; [right; now left|]. split.
      * split; [discriminate | intros (e & He'); discriminate].
      * split; [discriminate|].
        intros (text & entries & Hv & Hl & Ha & _). injection Hv as ->.
        rewrite (Hno text entries eq_refl Hl) in Ha. discriminate.
  - pose proof (endpoint_completion_raises _ _ _ _ _ _ _ E) as He.
    rewrite (handle_endpoint _ _ _ _ _ _ _ He). cbn.
    split; [right; now right|]. split.
    + split; [intros _; now exists e | reflexivity].
    + split; [discriminate | intros (text & entries & H & _); discriminate].
Qed.

(** X10: when the completion text parses to an object with a value that is
    not a string, the validation error of the response model reaches the
    global handler: the reply is HTTP 500 with the fixed message, the same
    for every such object. *)
Theorem invalid_filled_data_reply (request_data : FillFormRequest)
    (settings : Settings) (sent sent' : list HttpRequest) (text : string)
    (entries : list (string * json)) :
  get_completion lib_message post (service_of settings) (prompt request_data) sent
    = (Ok (JStr text), sent') ->
  json_loads text = Some (JDict entries) ->
  all_str entries = false ->
  handle lib_message post request_data settings sent
    = ({| reply_status := 500; reply_body := generic_error_body |}, sent').
Proof.
  intros Hc Hl Ha.
  pose proof (endpoint_completion_returns _ _ _ _ _ _ _ Hc) as He.
  unfold parse_filled_data, loads, and_then in He. rewrite Hl in He.
  unfold FillFormSuccessResponse_init in He.
  rewrite (validate_not_all_str entries Ha) in He.
  rewrite (handle_endpoint _ _ _ _ _ _ _ He). reflexivity.
Qed.

(** X11: the route reads the settings only through [llm_api_key] and
    [llm_api_endpoint]: two settings that agree on them give the same reply
    and send the same request. *)
Theorem settings_only_credentials (request_data : FillFormRequest)
    (s1 s2 : Settings) (sent : list HttpRequest) :
  llm_api_key s1 = llm_api_key s2 ->
  llm_api_endpoint s1 = llm_api_endpoint s2 ->
  handle lib_message post request_data s1 sent
  = handle lib_message post request_data s2 sent.
Proof.
  intros Hk Hu. unfold handle, fill_form_endpoint. now rewrite Hk, Hu.
Qed.

End FurtherProperties.

(** ** The models *)

Lemma validate_List_str_map (names : list string) :
  validate_List_str (map JStr names) = Some names.
Proof.
  induction names as [|name names IH]; simpl; [reflexivity | now rewrite IH].
Qed.

Lemma validate_List_str_inv (items : list json) (names : list string) :
  validate_List_str items = Some names -> items = map JStr names.
Proof.
  revert names. induction items as [|item items IH]; intros names H; simpl in H.
  - injection H as <-. reflexivity.
  - destruct item; try discriminate.
    destruct (validate_List_str items) as [names'|]; [|discriminate].
    injection H as <-. simpl. now rewrite (IH names' eq_refl).
Qed.

(** X12: a request that is dumped and validated again is the same request. *)
Theorem FillFormRequest_round_trip (request_data : FillFormRequest) :
  FillFormRequest_validate (FillFormRequest_dump request_data) = Some request_data.
Proof.
  destruct request_data as [names content template_id].
  unfold FillFormRequest_validate, FillFormRequest_dump. cbn.
  rewrite validate_List_str_map.
  destruct template_id; reflexivity.
Qed.

(** X13: the request model reads the members [fields], [source_content]
    and [prompt_template_id] of a body and no other: setting any other
    member, to any value, changes neither whether the body validates nor
    the request it validates to. *)
Theorem FillFormRequest_ignores_other_members (entries : list (string * json))
    (key : string) (value : json) :
  key <> "fields" -> key <> "source_content" -> key <> "prompt_template_id" ->
  FillFormRequest_validate (JDict (dict_set entries key value))
  = FillFormRequest_validate (JDict entries).
Proof.
  intros Hf Hc Ht. unfold FillFormRequest_validate.
  now rewrite !dict_get_set_other.
Qed.

(** X14: an empty [fields] list is accepted by the request model, for every
    source content, and is rendered as an empty field section: the two field
    markers with one empty line between them. *)
Theorem empty_fields_accepted (content : string) :
  exists request_data,
    FillFormRequest_validate
      (JDict [("fields", JList []); ("source_content", JStr content)])
      = Some request_data /\
    fields request_data = [] /\
    prompt request_data
    = "You are an AI assistant tasked with filling out a form." ++ LF ++
      "Below are the fields of the form:" ++ LF ++
      "--- FIELDS START ---" ++ LF ++ LF ++ "--- FIELDS END ---" ++ LF ++ LF ++
      "Here is the source content from which to extract the information:" ++ LF ++
      "--- CONTENT START ---" ++ LF ++ content ++ prompt_tail.
Proof.
  exists (FillFormRequest_init [] content None).
  split; [reflexivity|]. split; [reflexivity|].
  rewrite prompt_shape. unfold prompt_head, prompt_middle, fields_str. cbn.
  reflexivity.
Qed.

(** X15: the response model accepts every mapping of strings to strings as
    it is.  The reply built from it is HTTP 200 when no value holds an
    unpaired surrogate and the reply of the global handler, HTTP 500, when
    one does.  No key of a 200 reply holds an unpaired surrogate, and the
    reply carries exactly the mapping when no key of the mapping holds
    one. *)
Theorem FillFormSuccessResponse_round_trip (data : list (string * string)) :
  NoDup (map fst data) ->
  FillFormSuccessResponse_init (json_of_data data)
    = Ok {| status := "success"; filled_data := data |} /\
  (values_encodable data = true ->
   reply_of (FillFormSuccessResponse_init (json_of_data data))
     = {| reply_status := 200;
          reply_body := JDict [("status", JStr "success");
                               ("filled_data",
                                JDict (serialize_filled_data data))] |} /\
   encodable_keys (serialize_filled_data data) = true /\
   (forallb (fun kv => negb (has_surrogate (fst kv))) data = true ->
    JDict (serialize_filled_data data) = json_of_data data)) /\
  (values_encodable data = false ->
   reply_of (FillFormSuccessResponse_init (json_of_data data))
     = {| reply_status := 500; reply_body := generic_error_body |}).
Proof.
  intros Hd. rewrite validate_json_of_data.
  split; [reflexivity|]. split.
  - intros Hv. split.
    + unfold reply_of. cbn [filled_data status]. now rewrite Hv.
    + split; [apply serialize_filled_data_keys|].
      intros Hk. now apply serialize_filled_data_same.
  - intros Hv. unfold reply_of. cbn [filled_data]. now rewrite Hv.
Qed.

(** ** The cached settings *)

(** X16: once a call of [get_settings] has succeeded, every later call
    returns the same settings whatever the environment has become, and the
    route handles every request with these settings. *)
Theorem get_settings_memoized
    (Settings_init : list (string * string) -> result Settings)
    (environ : list (string * string)) (settings : Settings)
    (cache : option Settings) :
  get_settings Settings_init environ None = (Ok settings, cache) ->
  (forall environs,
     get_settings_calls Settings_init environs cache
     = (map (fun _ => Ok settings) environs, Some settings)) /\
  (forall lib_message post request_data environ' sent,
     fill_form_route Settings_init lib_message post request_data environ' cache sent
     = (fst (handle lib_message post request_data settings sent),
        Some settings,
        snd (handle lib_message post request_data settings sent))).
Proof.
  intros H. unfold get_settings in H.
  destruct (Settings_init environ) as [s|e]; [|discriminate].
  injection H as <- <-.
  split.
  - induction environs as [|environ' environs IH]; [reflexivity|].
    cbn [get_settings_calls get_settings]. rewrite IH. reflexivity.
  - intros lib_message post request_data environ' sent.
    unfold fill_form_route, get_settings.
    destruct (handle lib_message post request_data s sent). reflexivity.
Qed.

(** With a filled cache every call returns the cached settings. *)
Lemma get_settings_calls_cached
    (Settings_init : list (string * string) -> result Settings)
    (settings : Settings) (environs : list (list (string * string))) :
  get_settings_calls Settings_init environs (Some settings)
  = (map (fun _ => Ok settings) environs, Some settings).
Proof.
  induction environs as [|environ environs IH]; [reflexivity|].
  cbn [get_settings_calls get_settings]. now rewrite IH.
Qed.

(** While every call raises, each call reads its own environment and the
    cache stays empty. *)
Lemma get_settings_calls_failing
    (Settings_init : list (string * string) -> result Settings)
    (failing : list (list (string * string))) :
  Forall (fun environ => exists e, Settings_init environ = Raise e) failing ->
  get_settings_calls Settings_init failing None
  = (map Settings_init failing, None).
Proof.
  induction 1 as [|environ failing [e He] _ IH]; [reflexivity|].
  cbn [get_settings_calls get_settings map]. now rewrite He, IH.
Qed.

(** X17: calls of [get_settings] that raise are not cached: after any number
    of them the cache is still empty and each of them has raised what
    [Settings()] raised for its own environment; the first call that
    succeeds then fixes the settings of every later call, whatever the
    environments of the later calls. *)
Theorem get_settings_failure_not_cached
    (Settings_init : list (string * string) -> result Settings)
    (failing later : list (list (string * string)))
    (environ : list (string * string)) (settings : Settings) :
  Forall (fun environ => exists e, Settings_init environ = Raise e) failing ->
  Settings_init environ = Ok settings ->
  get_settings_calls Settings_init failing None
    = (map Settings_init failing, None) /\
  get_settings_calls Settings_init (failing ++ environ :: later)%list None
    = ((map Settings_init failing
        ++ Ok settings :: map (fun _ => Ok settings) later)%list,
       Some settings).
Proof.
  intros Hf Hs. split; [now apply get_settings_calls_failing|].
  induction Hf as [|environ' failing [e He] _ IH].
  - cbn [app map get_settings_calls get_settings]. rewrite Hs.
    now rewrite get_settings_calls_cached.
  - cbn [app map get_settings_calls get_settings]. now rewrite He, IH.
Qed.

(** * More concrete runs *)

Lemma get_completion_wraps_parse_errors_witness :
  exists msg,
    ValueError "Error parsing LLM API response: Expecting value"
    = ValueError ("Error parsing LLM API response: " ++ msg).
Proof.
  apply (get_completion_wraps_parse_errors sample_message
           (upstream_replying 200 "<html>") (service_of sample_settings)
           "prompt" []);
    vm_compute; reflexivity.
Defined.

Lemma falsy_choices_reply_witness :
  fst (handle sample_message (upstream_replying 200 (q "{`choices`: null}"))
         sample_request sample_settings [])
  = {| reply_status := 503;
       reply_body :=
         JDict [("detail",
                 JStr "LLM service request failed: Error parsing LLM API response: Could not extract valid content from LLM response.")] |}.
Proof.
  apply (falsy_choices_reply sample_message
           (upstream_replying 200 (q "{`choices`: null}"))
           sample_request sample_settings []
           {| status_code := 200; text := q "{`choices`: null}" |}
           [("choices", JNull)] JNull);
    vm_compute; reflexivity.
Defined.

Lemma first_choice_not_object_witness :
  let body := q "{`choices`: [5, {`message`: {`content`: `{}`}}]}" in
  fst (get_completion sample_message (upstream_replying 200 body)
         (service_of sample_settings) (prompt sample_request) [])
    = Raise (AttributeError "int" "get") /\
  fst (handle sample_message (upstream_replying 200 body)
         sample_request sample_settings [])
  = {| reply_status := 503;
       reply_body :=
         JDict [("detail", JStr "LLM service request failed: no attribute get")] |}.
Proof.
  intros body.
  apply (first_choice_not_object sample_message (upstream_replying 200 body)
           sample_request sample_settings []
           {| status_code := 200; text := body |}
           [("choices",
             JList [JInt 5;
                    JDict [("message", JDict [("content", JStr "{}")])]])]
           (JInt 5)
           [JDict [("message", JDict [("content", JStr "{}")])]]);
    vm_compute; reflexivity.
Defined.

Lemma only_first_choice_is_read_witness :
  let body1 := q "{`choices`: [{`message`: {`content`: `{}`}}]}" in
  let body2 :=
    q "{`id`: 7, `choices`: [{`message`: {`content`: `{}`}}, {`message`: 1}, null]}" in
  get_completion sample_message (upstream_replying 200 body1)
    (service_of sample_settings) "prompt" []
  = get_completion sample_message (upstream_replying 201 body2)
      (service_of sample_settings) "prompt" [].
Proof.
  intros body1 body2.
  apply (only_first_choice_is_read sample_message (upstream_replying 200 body1)
           (service_of sample_settings) "prompt" []
           (upstream_replying 201 body2)
           {| status_code := 200; text := body1 |}
           {| status_code := 201; text := body2 |}
           [("choices", JList [JDict [("message", JDict [("content", JStr "{}")])]])]
           [("id", JInt 7);
            ("choices", JList [JDict [("message", JDict [("content", JStr "{}")])];
                               JDict [("message", JInt 1)]; JNull])]
           (JDict [("message", JDict [("content", JStr "{}")])])
           [] [JDict [("message", JInt 1)]; JNull]);
    vm_compute; reflexivity.
Defined.

Lemma non_string_content_reply_witness :
  let post := upstream_replying 200 (q "{`choices`: [{`message`: {`content`: 5}}]}") in
  let sent' := [completion_request (service_of sample_settings)
                  (prompt sample_request)] in
  fill_form_endpoint sample_message post sample_request sample_settings []
    = (Raise (TypeError "json.loads" "int"), sent') /\
  handle sample_message post sample_request sample_settings []
    = ({| reply_status := 500; reply_body := generic_error_body |}, sent').
Proof.
  intros post sent'.
  apply (non_string_content_reply sample_message post sample_request
           sample_settings [] sent' (JInt 5));
    vm_compute; reflexivity.
Defined.

Lemma invalid_filled_data_reply_witness :
  handle sample_message (upstream_replying 200 (envelope typed_escaped))
    sample_request sample_settings []
  = ({| reply_status := 500; reply_body := generic_error_body |},
     [completion_request (service_of sample_settings) (prompt sample_request)]).
Proof.
  apply (invalid_filled_data_reply sample_message
           (upstream_replying 200 (envelope typed_escaped))
           sample_request sample_settings [] _ typed_text
           [("age", JInt 30); ("address", JDict [("city", JStr "Paris")])]);
    vm_compute; reflexivity.
Defined.

Lemma settings_only_credentials_witness :
  handle sample_message (upstream_replying 200 (envelope happy_escaped))
    sample_request sample_settings []
  = handle sample_message (upstream_replying 200 (envelope happy_escaped))
      sample_request other_settings [].
Proof.
  apply settings_only_credentials; reflexivity.
Defined.

Lemma FillFormRequest_ignores_other_members_witness :
  FillFormRequest_validate
    (JDict [("fields", JList [JStr "name"; JStr "email"]);
            ("source_content", JStr "John Doe, john@example.com");
            ("fields_", JList [JInt 1])])
  = Some sample_request.
Proof.
  refine (eq_trans
            (FillFormRequest_ignores_other_members
               [("fields", JList [JStr "name"; JStr "email"]);
                ("source_content", JStr "John Doe, john@example.com")]
               "fields_" (JList [JInt 1]) _ _ _)
            eq_refl);
    discriminate.
Defined.

Lemma get_settings_memoized_witness :
  get_settings_calls stub_Settings_init [[]; [("LLM_API_KEY", "other")]]
    (Some sample_settings)
  = ([Ok sample_settings; Ok sample_settings], Some sample_settings) /\
  fill_form_route stub_Settings_init sample_message
    (upstream_replying 200 (envelope happy_escaped)) sample_request []
    (Some sample_settings) []
  = (fst (handle sample_message (upstream_replying 200 (envelope happy_escaped))
            sample_request sample_settings []),
     Some sample_settings,
     snd (handle sample_message (upstream_replying 200 (envelope happy_escaped))
            sample_request sample_settings [])).
Proof.
  destruct (get_settings_memoized stub_Settings_init sample_environ sample_settings
              (Some sample_settings) eq_refl) as (Hcalls & Hroute).
  split; [exact (Hcalls [[]; [("LLM_API_KEY", "other")]]) | apply Hroute].
Defined.

Lemma get_settings_failure_not_cached_witness :
  get_settings_calls stub_Settings_init [[]; []] None
    = ([Raise (ValidationError "Settings" JNull);
        Raise (ValidationError "Settings" JNull)], None) /\
  get_settings_calls stub_Settings_init [[]; []; sample_environ; []; []] None
    = ([Raise (ValidationError "Settings" JNull);
        Raise (ValidationError "Settings" JNull);
        Ok sample_settings; Ok sample_settings; Ok sample_settings],
       Some sample_settings).
Proof.
  apply (get_settings_failure_not_cached stub_Settings_init [[]; []] [[]; []]
           sample_environ sample_settings).
  - repeat constructor; exists (ValidationError "Settings" JNull); reflexivity.
  - reflexivity.
Defined.

Lemma FillFormSuccessResponse_round_trip_witness :
  let lone := byte 237 ++ byte 160 ++ byte 128 in
  reply_of (FillFormSuccessResponse_init (json_of_data [(lone, "a"); ("b", "c")]))
    = {| reply_status := 200;
         reply_body :=
           JDict [("status", JStr "success");
                  ("filled_data",
                   JDict [(REPLACEMENT ++ REPLACEMENT ++ REPLACEMENT, JStr "a");
                          ("b", JStr "c")])] |} /\
  reply_of (FillFormSuccessResponse_init (json_of_data [("a", lone)]))
    = {| reply_status := 500; reply_body := generic_error_body |} /\
  reply_of (FillFormSuccessResponse_init (json_of_data [("city", "Paris")]))
    = {| reply_status := 200;
         reply_body :=
           JDict [("status", JStr "success");
                  ("filled_data", JDict [("city", JStr "Paris")])] |}.
Proof.
  intros lone. split; [|split].
  - assert (Hd : NoDup (map fst [(lone, "a"); ("b", "c")])).
    { repeat constructor; cbn; intuition discriminate. }
    destruct (FillFormSuccessResponse_round_trip [(lone, "a"); ("b", "c")] Hd)
      as (_ & Hok & _).
    exact (proj1 (Hok eq_refl)).
  - assert (Hd : NoDup (map fst [("a", lone)])).
    { repeat constructor; cbn; intuition. }
    destruct (FillFormSuccessResponse_round_trip [("a", lone)] Hd) as (_ & _ & Hbad).
    exact (Hbad eq_refl).
  - assert (Hd : NoDup (map fst [("city", "Paris")])).
    { repeat constructor; cbn; intuition. }
    destruct (FillFormSuccessResponse_round_trip [("city", "Paris")] Hd)
      as (_ & Hok & _).
    destruct (Hok eq_refl) as (Hr & _ & Hsame).
    rewrite Hr. now rewrite (Hsame eq_refl).
Defined.
